(** * RABIES: diagnosis interfaces and template checks

    A shallow embedding of
    - [rabies/analysis_pkg/diagnosis_pkg/interfaces.py]
      ([PrepMasks], [ScanDiagnosis], [DatasetDiagnosis]) and
    - the mask checks of [rabies/run_main.py]
      ([check_binary_masks], [check_template_overlap], [preprocess]).

    Python exceptions are values of [exn]; a function that may raise returns
    a [result].  The file-system effects of [DatasetDiagnosis._run_interface]
    are recorded as a trace of events ([io]), which [replay] turns into the
    state of the disk.  Routines of the package that the interfaces call but
    that live in other modules ([analysis_QC], [spatial_crosscorrelations],
    [otsu_scaling], image readers) are fields of the class [Collaborators]. *)

From Stdlib Require Import QArith Ascii.
From stdpp Require Import gmap strings list fin_maps pretty.

Local Open Scope string_scope.
Local Open Scope list_scope.
Local Open Scope nat_scope.

(** ** Python values shared by the interfaces *)

Module Py.

(** The exception classes the modelled code raises, with the argument that
    tells them apart. *)
Inductive exn : Type :=
| ValueError (msg : string)
| IndexError (msg : string)
| KeyError (key : string)
| UnboundLocalError (name : string).

Inductive result (A : Type) : Type :=
| Ok (a : A)
| Raise (e : exn).
Arguments Ok {A} a.
Arguments Raise {A} e.

#[global] Instance result_ret : MRet result := λ A a, Ok a.

#[global] Instance result_bind : MBind result := λ A B k r,
  match r with
  | Ok a => k a
  | Raise e => Raise e
  end.

(** [d[key]] on a dictionary of strings. *)
Definition getitem (d : gmap string string) (key : string) : result string :=
  match d !! key with
  | Some v => Ok v
  | None => Raise (KeyError key)
  end.

(** [for x in xs: ...] with a body that may raise, collecting the results
    (a list comprehension). *)
Fixpoint traverse {A B : Type} (f : A → result B) (xs : list A)
  : result (list B) :=
  match xs with
  | [] => Ok []
  | x :: xs' =>
      y ← f x; ys ← traverse f xs'; Ok (y :: ys)
  end.

(** A traits list as the workflow engine hands it over: items, or lists of
    items, nested to any depth. *)
#[local] Set Warnings "-register-all".
Inductive nested (A : Type) : Type :=
| Item (a : A)
| Nest (l : list (nested A)).
Arguments Item {A} a.
Arguments Nest {A} l.

Fixpoint flatten {A : Type} (e : nested A) : list A :=
  match e with
  | Item a => [a]
  | Nest l => flat_map flatten l
  end.

(** Modelled from the spec: [flatten_list] is imported from
    [rabies.preprocess_pkg.utils], which is not among the sources at hand.
    The cohort "is assembled by concatenating per-scan records": the
    elements of the (possibly nested) list, left to right. *)
Definition flatten_list {A : Type} (l : list (nested A)) : list A :=
  flat_map flatten l.

(** [zip(a, b, c)]: stops at the shortest argument. *)
Fixpoint zip3 {A B C : Type} (a : list A) (b : list B) (c : list C)
  : list (A * B * C) :=
  match a, b, c with
  | x :: a', y :: b', z :: c' => (x, y, z) :: zip3 a' b' c'
  | _, _, _ => []
  end.

(** [os.path.abspath(name)] for a relative [name] without dots, in the
    working directory [cwd]. *)
Definition abspath (cwd name : string) : string := cwd +:+ "/" +:+ name.

End Py.

Export Py.

(** ** NumPy arrays as nested lists *)

Module Np.

(** A 1-D array of voxel values, and a stack of such rows. *)
Abbreviation vec num := (list num) (only parsing).
Abbreviation mat num := (list (list num)) (only parsing).

Section Arrays.
Context {num : Type}.

(** All rows have the length of the first one. *)
Definition homogeneous {A : Type} (rows : list (list A)) : bool :=
  match rows with
  | [] => true
  | r :: rest => forallb (λ r', length r' =? length r) rest
  end.

Definition inhomogeneous_msg : string :=
  "setting an array element with a sequence. The requested array has an inhomogeneous shape".

(** [np.array(rows)] for a list of 1-D arrays.  Rows of different
    lengths raise [ValueError] (NumPy 1.24 and later; earlier versions
    built an array of objects instead). *)
Definition array2 (rows : list (vec num)) : result (list (vec num)) :=
  if homogeneous rows then Ok rows
  else Raise (ValueError inhomogeneous_msg).

(** [np.array(stacks)] for a list of 2-D stacks (lists of rows): every
    stack has the same number of rows and every row the same length. *)
Definition array3 (stacks : list (mat num)) : result (list (mat num)) :=
  if homogeneous stacks && homogeneous (concat stacks) then Ok stacks
  else Raise (ValueError inhomogeneous_msg).

(** [a.shape[1]] of a stacked 3-D array with at least one entry on
    axis 0. *)
Definition shape1 (a : list (mat num)) : nat :=
  match a with
  | [] => 0
  | m :: _ => length m
  end.

(** [a[:, i, :]]: row [i] of every stack; [IndexError] when [i] is out of
    bounds for axis 1. *)
Definition take_axis1 (a : list (mat num)) (i : nat)
  : result (list (vec num)) :=
  match mapM (λ m : mat num, m !! i) a with
  | Some rows => Ok rows
  | None => Raise (IndexError "index is out of bounds for axis 1")
  end.

(** [data[mask]] with a boolean [mask]: the entries of [data] where the
    mask holds, in order; the shapes must agree. *)
Fixpoint select (mask : list bool) (data : list num) : list num :=
  match mask, data with
  | b :: mask', x :: data' =>
      if b then x :: select mask' data' else select mask' data'
  | _, _ => []
  end.

Definition bool_index (data : list num) (mask : list bool)
  : result (list num) :=
  if length data =? length mask then Ok (select mask data)
  else Raise (IndexError "boolean index did not match indexed array").

End Arrays.

End Np.

(** ** [run_main.py]: checks on the template and the masks *)

Module RunMain.

(** What [sitk.ReadImage] gives and the checks look at: the header's origin
    and direction tuples and the voxel array. *)
Record Image : Type := {
  GetOrigin : list Q;
  GetDirection : list Q;
  GetArray : list Q;
}.

(** [==] on tuples of floats. *)
Fixpoint tuple_eqb (a b : list Q) : bool :=
  match a, b with
  | [], [] => true
  | x :: a', y :: b' => Qeq_bool x y && tuple_eqb a' b'
  | _, _ => false
  end.

Section Checks.
(** [sitk.ReadImage] and [os.path.isfile] on the disk the command runs
    on, and [convert_to_RAS] of [rabies.preprocess_pkg.utils]. *)
Variable ReadImage : string → Image.
Variable isfile : string → bool.
Variable convert_to_RAS : string → string → string.

(** [((array != 1)*(array != 0)).sum() > 0] *)
Definition non_binary (array : list Q) : bool :=
  existsb (λ x, negb (Qeq_bool x 1) && negb (Qeq_bool x 0)) array.

Definition check_binary_masks (mask : string) : result unit :=
  let img := ReadImage mask in
  let array := GetArray img in
  if non_binary array then
    Raise (ValueError ("The file " +:+ mask +:+
      " is not a binary mask. Non-binary masks cannot be processed."))
  else Ok tt.

(** [if not template_img.GetOrigin() == mask_img.GetOrigin() and
        template_img.GetDirection() == mask_img.GetDirection(): raise]:
    [not] applies to the first comparison only, [and] joins it with the
    second. *)
Definition check_template_overlap (template mask : string) : result unit :=
  let template_img := ReadImage template in
  let mask_img := ReadImage mask in
  if negb (tuple_eqb (GetOrigin template_img) (GetOrigin mask_img))
     && tuple_eqb (GetDirection template_img) (GetDirection mask_img)
  then
    Raise (ValueError ("The file " +:+ mask +:+
      " does not appear to overlap with provided template " +:+
      template +:+ "."))
  else Ok tt.

(** One block of [preprocess] (lines 650-682): the file must exist, be
    binary when [binary] is set (every mask but [--labels]), is converted
    to RAS, and is checked against the template.  Returns the converted
    path that replaces the option. *)
Definition check_mask_option (flag : string) (binary : bool)
    (output_folder anat_template mask : string) : result string :=
  if negb (isfile mask) then
    Raise (ValueError ("--" +:+ flag +:+ " file " +:+ mask +:+
                       " doesn't exists."))
  else
    _ ← (if binary then check_binary_masks mask else Ok tt) ;
    let mask' := convert_to_RAS mask (output_folder +:+ "/template_files") in
    _ ← check_template_overlap anat_template mask' ;
    Ok mask'.

Record MaskOptions : Type := {
  brain_mask : string;
  WM_mask : string;
  CSF_mask : string;
  vascular_mask : string;
  labels : string;
}.

(** The five blocks in the order of [preprocess]; [anat_template] is the
    template already converted to RAS. *)
Definition preprocess_masks (output_folder anat_template : string)
    (opts : MaskOptions) : result MaskOptions :=
  bm ← check_mask_option "brain_mask" true output_folder anat_template
         (brain_mask opts) ;
  wm ← check_mask_option "WM_mask" true output_folder anat_template
         (WM_mask opts) ;
  csf ← check_mask_option "CSF_mask" true output_folder anat_template
          (CSF_mask opts) ;
  vasc ← check_mask_option "vascular_mask" true output_folder anat_template
           (vascular_mask opts) ;
  lab ← check_mask_option "labels" false output_folder anat_template
          (labels opts) ;
  Ok {| brain_mask := bm; WM_mask := wm; CSF_mask := csf;
        vascular_mask := vasc; labels := lab |}.

(** The headers agree when both tuples do. *)
Definition same_geometry (template mask : string) : bool :=
  tuple_eqb (GetOrigin (ReadImage template)) (GetOrigin (ReadImage mask))
  && tuple_eqb (GetDirection (ReadImage template))
               (GetDirection (ReadImage mask)).

End Checks.

End RunMain.

(** ** The disk and the effects of an interface run *)

Module Io.

Section Events.
Context {num figure stats : Type}.

(** What the interfaces write: rendered figures, tables (the rows of a
    CSV file under its header) and NIfTI images. *)
Inductive content : Type :=
| Figure (fig : figure)
| Csv (rows : list stats)
| Nifti (img : list num).

Inductive event : Type :=
| MkDir (path : string)
| WriteFile (path : string) (c : content).

(** A computation that writes to the disk and may raise: the events it
    performed, in order, and how it ended.  Events performed before an
    exception stay performed. *)
Record io (A : Type) : Type := IO {
  trace : list event;
  outcome : result A;
}.
Arguments IO {A} trace outcome.
Arguments trace {A} _.
Arguments outcome {A} _.

#[global] Instance io_ret : MRet io := λ A a, IO [] (Ok a).

#[global] Instance io_bind : MBind io := λ A B k m,
  match outcome m with
  | Ok a => IO (trace m ++ trace (k a)) (outcome (k a))
  | Raise e => IO (trace m) (Raise e)
  end.

Definition lift {A : Type} (r : result A) : io A := IO [] r.
Definition raise {A : Type} (e : exn) : io A := IO [] (Raise e).

(** [os.makedirs(path, exist_ok=True)] and [tempfile.mkdtemp()] *)
Definition makedirs (path : string) : io unit := IO [MkDir path] (Ok tt).

(** [fig.savefig(path)], [DataFrame.to_csv(path)], [sitk.WriteImage] *)
Definition write (path : string) (c : content) : io unit :=
  IO [WriteFile path c] (Ok tt).

(** [for x in xs: body(x)] *)
Fixpoint for_each {A : Type} (xs : list A) (body : A → io unit) : io unit :=
  match xs with
  | [] => mret tt
  | x :: xs' => _ ← body x; for_each xs' body
  end.

(** [for i in range(n): body(i)] *)
Definition for_range (n : nat) (body : nat → io unit) : io unit :=
  for_each (seq 0 n) body.

(** The disk: regular files by path, and the directories that exist. *)
Record disk : Type := Disk {
  files : gmap string content;
  dirs : gset string;
}.

Definition apply_event (d : disk) (e : event) : disk :=
  match e with
  | MkDir path => Disk (files d) ({[ path ]} ∪ dirs d)
  | WriteFile path c => Disk (<[ path := c ]> (files d)) (dirs d)
  end.

Definition replay (tr : list event) (d : disk) : disk :=
  foldl apply_event d tr.

(** The paths of the figures and tables a trace writes, in order. *)
Definition outputs (tr : list event) : list string :=
  omap (λ e, match e with
             | WriteFile path (Figure _) | WriteFile path (Csv _) => Some path
             | _ => None
             end) tr.

(** The tables a trace writes, with their rows. *)
Definition tables (tr : list event) : list (string * list stats) :=
  omap (λ e, match e with
             | WriteFile path (Csv rows) => Some (path, rows)
             | _ => None
             end) tr.

End Events.

Arguments content : clear implicits.
Arguments event : clear implicits.
Arguments io : clear implicits.
Arguments disk : clear implicits.
Arguments IO {num figure stats A} trace outcome.
Arguments trace {num figure stats A} _.
Arguments outcome {num figure stats A} _.

End Io.

Export Io.

(** ** [interfaces.py]: the dataset-level diagnosis *)

Module Dataset.

Import Np.

Section Records.
Context {num : Type}.

(** The entries of a scan's [spatial_info] dictionary that the dataset
    diagnosis reads. *)
Record SpatialInfo : Type := {
  temporal_std : vec num;
  VE_spatial : vec num;
  DR_BOLD : mat num;
  dual_ICA_maps : mat num;
  prior_maps : mat num;
}.

(** [analysis_dict]: the seed-based connectivity maps of the scan. *)
Record AnalysisDict : Type := {
  seed_map_files : list string;
}.

(** [file_dict] with its fixed keys; of [CR_data_dict] the diagnosis
    reads the temporal degrees of freedom. *)
Record CRDataDict : Type := {
  tDOF : Z;
}.

Record FileDict : Type := {
  bold_file : string;
  CR_data_dict : CRDataDict;
  VE_file : string;
  STD_file : string;
}.

(** [DatasetDiagnosisInputSpec] *)
Record Inputs : Type := {
  spatial_info_list : list (nested SpatialInfo);
  analysis_dict_list : list (nested AnalysisDict);
  file_dict_list : list (nested FileDict);
  mask_file_dict : gmap string string;
  seed_prior_maps : list string;
}.

(** The lists the loop over the scans fills, and its loop variable
    [spatial_info], which the code reads after the loop. *)
Record Stacked : Type := {
  std_maps : list (vec num);
  VE_maps : list (vec num);
  DR_maps_list : list (mat num);
  seed_maps_list : list (list (vec num));
  dual_ICA_maps_list : list (mat num);
  tdof_list : list Z;
  spatial_info : option SpatialInfo;
}.

Definition no_scan : Stacked :=
  {| std_maps := []; VE_maps := []; DR_maps_list := [];
     seed_maps_list := []; dual_ICA_maps_list := []; tdof_list := [];
     spatial_info := None |}.

End Records.

Arguments SpatialInfo : clear implicits.
Arguments Inputs : clear implicits.
Arguments Stacked : clear implicits.

(** The routines [_run_interface] calls that live in other modules of the
    package or in the imaging libraries.  A figure routine returns the
    figure it renders; the interface's trace records it at the path the
    routine was given. *)
Class Collaborators (num figure stats : Type) : Type := {
  (** [x.astype(bool)] on one voxel *)
  nonzero : num → bool;
  (** [np.asarray(nb.load(path).dataobj)], voxels in array order *)
  nb_load : string → list num;
  (** [otsu_scaling(template_file)] *)
  otsu_scaling : string → list num;
  (** [spatial_crosscorrelations(merged, scaled, mask_file, fig_path)] *)
  spatial_crosscorrelations :
    list (SpatialInfo num) → list num → string → figure;
  (** [analysis_QC(FC_maps, prior_map, mask_file, std_maps, VE_maps,
      tdof_list, template_file, fig_path)]: the statistics it returns and
      the figure it saves *)
  analysis_QC :
    list (vec num) → vec num → string → list (vec num) → list (vec num) →
    list Z → string → stats * figure;
  (** [sitk.Resample(sitk.ReadImage(prior_map), sitk.ReadImage(mask_file))],
      as the array [nb.load] reads back from the temporary file *)
  sitk_resample : string → string → list num;
}.

Section RunInterface.
Context {num figure stats : Type} `{!Collaborators num figure stats}.

Local Abbreviation io := (io num figure stats).

Definition sample_size_msg : string :=
  "Cannot run statistics on a sample size smaller than 3, so an empty figure is generated.".

(** The output names: [f'{out_dir}/{family}{i}_QC_maps.png'] and
    [f'{out_dir}/{family}{i}_QC_stats.csv']. *)
Definition maps_png (out_dir family : string) (i : nat) : string :=
  out_dir +:+ "/" +:+ family +:+ pretty i +:+ "_QC_maps.png".

Definition stats_csv (out_dir family : string) (i : nat) : string :=
  out_dir +:+ "/" +:+ family +:+ pretty i +:+ "_QC_stats.csv".

Definition crosscorr_png (out_dir : string) : string :=
  out_dir +:+ "/spatial_crosscorrelations.png".

Definition temp_img (tmppath : string) : string :=
  tmppath +:+ "/temp_img.nii.gz".

(** One pass of the loop over [zip(merged_spatial_info,
    merged_analysis_dict, merged_file_dict)] (lines 215-226). *)
Definition stack_scan (volume_indices : list bool) (acc : Stacked num)
    (scan : SpatialInfo num * AnalysisDict * FileDict)
  : result (Stacked num) :=
  let '(spatial_info, analysis_dict, file_dict) := scan in
  seed_list ← traverse (λ seed_map, bool_index (nb_load seed_map) volume_indices)
                       (seed_map_files analysis_dict);
  Ok {| std_maps := std_maps acc ++ [temporal_std spatial_info];
        VE_maps := VE_maps acc ++ [VE_spatial spatial_info];
        DR_maps_list := DR_maps_list acc ++ [DR_BOLD spatial_info];
        seed_maps_list := seed_maps_list acc ++ [seed_list];
        dual_ICA_maps_list :=
          dual_ICA_maps_list acc ++ [dual_ICA_maps spatial_info];
        tdof_list := tdof_list acc ++ [tDOF (CR_data_dict file_dict)];
        spatial_info := Some spatial_info |}.

Fixpoint stack_scans (volume_indices : list bool) (acc : Stacked num)
    (scans : list (SpatialInfo num * AnalysisDict * FileDict))
  : result (Stacked num) :=
  match scans with
  | [] => Ok acc
  | scan :: scans' =>
      acc' ← stack_scan volume_indices acc scan;
      stack_scans volume_indices acc' scans'
  end.

(** One of the three per-prior loops (lines 235-239, 242-246, 264-268):
    for each index, the maps of that component across the scans, the
    figure and the one-row table. *)
Definition QC_loop (out_dir family : string) (maps_list : list (mat num))
    (prior_maps : mat num) (num_priors : nat) (mask_file : string)
    (std_maps VE_maps : list (vec num)) (tdof_list : list Z)
    (template_file : string) : io unit :=
  for_range num_priors (λ i,
    FC_maps ← lift (take_axis1 maps_list i);
    let fig_path := maps_png out_dir family i in
    prior_map ← lift (match prior_maps !! i with
                      | Some row => Ok row
                      | None => Raise (IndexError "index is out of bounds for axis 0")
                      end);
    let '(dataset_stats, fig) :=
      analysis_QC FC_maps prior_map mask_file std_maps VE_maps tdof_list
                  template_file in
    _ ← write fig_path (Figure fig);
    write (stats_csv out_dir family i) (Csv [dataset_stats])).

(** The resampling loop of the seed branch (lines 254-259). *)
Definition resample_seed_priors (tmppath mask_file : string)
    (volume_indices : list bool) (seed_priors : list string)
  : io (list (vec num)) :=
  foldl (λ (acc : io (list (vec num))) prior_map,
           prior_maps ← acc;
           let sitk_img := sitk_resample prior_map mask_file in
           _ ← write (temp_img tmppath) (Nifti sitk_img);
           v ← lift (bool_index sitk_img volume_indices);
           mret (prior_maps ++ [v]))
        (mret []) seed_priors.

(** Lines 209-231: the loop over the scans, then [np.array] on the four
    stacks it is applied to there. *)
Definition stack_maps (volume_indices : list bool)
    (scans : list (SpatialInfo num * AnalysisDict * FileDict))
  : result (Stacked num) :=
  st ← stack_scans volume_indices no_scan scans;
  std_maps ← array2 (std_maps st);
  VE_maps ← array2 (VE_maps st);
  DR_maps_list ← array3 (DR_maps_list st);
  dual_ICA_maps_list ← array3 (dual_ICA_maps_list st);
  Ok {| std_maps := std_maps; VE_maps := VE_maps;
        DR_maps_list := DR_maps_list;
        seed_maps_list := seed_maps_list st;
        dual_ICA_maps_list := dual_ICA_maps_list;
        tdof_list := tdof_list st;
        spatial_info := spatial_info st |}.

(** Lines 233-268: the per-prior diagnosis of the dual regression maps, of
    the dual ICA maps when there are any, and of the seed maps when seed
    priors are given. *)
Definition per_prior_QC (out_dir tmppath mask_file template_file : string)
    (volume_indices : list bool) (seed_priors : list string)
    (st : Stacked num) : io unit :=
  spatial_info ← lift (match spatial_info st with
                       | Some s => Ok s
                       | None => Raise (UnboundLocalError "spatial_info")
                       end);
  let prior_maps := prior_maps spatial_info in
  let num_priors := length prior_maps in
  _ ← QC_loop out_dir "DR" (DR_maps_list st) prior_maps num_priors mask_file
        (std_maps st) (VE_maps st) (tdof_list st) template_file;
  _ ← (if 0 <? shape1 (dual_ICA_maps_list st) then
         QC_loop out_dir "dual_ICA" (dual_ICA_maps_list st) prior_maps
           num_priors mask_file (std_maps st) (VE_maps st) (tdof_list st)
           template_file
       else mret tt);
  if 0 <? length seed_priors then
    _ ← makedirs tmppath;
    prior_maps ← resample_seed_priors tmppath mask_file volume_indices
                   seed_priors;
    prior_maps ← lift (array2 prior_maps);
    let num_priors := length prior_maps in
    seed_maps_list ← lift (array3 (seed_maps_list st));
    QC_loop out_dir "seed_FC" seed_maps_list prior_maps num_priors
      mask_file (std_maps st) (VE_maps st) (tdof_list st) template_file
  else mret tt.

(** [DatasetDiagnosis._run_interface], in the working directory [cwd];
    [tmppath] is the directory [tempfile.mkdtemp()] creates when the seed
    branch runs.  Returns the [dataset_diagnosis] output. *)
Definition run_interface (inputs : Inputs num) (cwd tmppath : string)
  : io string :=
  let merged_spatial_info := flatten_list (spatial_info_list inputs) in
  let merged_analysis_dict := flatten_list (analysis_dict_list inputs) in
  let merged_file_dict := flatten_list (file_dict_list inputs) in
  if length merged_spatial_info <? 3 then
    raise (ValueError sample_size_msg)
  else
    let out_dir := abspath cwd "dataset_diagnosis" in
    _ ← makedirs out_dir;
    template_file ← lift (getitem (mask_file_dict inputs) "template_file");
    mask_file ← lift (getitem (mask_file_dict inputs) "brain_mask");
    let brain_mask := nb_load mask_file in
    let volume_indices := map nonzero brain_mask in
    let scaled := otsu_scaling template_file in
    let fig_path := crosscorr_png out_dir in
    _ ← write fig_path
          (Figure (spatial_crosscorrelations merged_spatial_info scaled
                                             mask_file));
    st ← lift (stack_maps volume_indices
                 (zip3 merged_spatial_info merged_analysis_dict
                       merged_file_dict));
    _ ← per_prior_QC out_dir tmppath mask_file template_file volume_indices
          (seed_prior_maps inputs) st;
    mret out_dir.

(** The run on a disk: its outcome and the disk it leaves. *)
Definition run_on (inputs : Inputs num) (cwd tmppath : string)
    (d : disk num figure stats)
  : result string * disk num figure stats :=
  let r := run_interface inputs cwd tmppath in
  (outcome r, replay (trace r) d).

End RunInterface.

End Dataset.

(** ** [interfaces.py]: the mask bundle *)

Module Masks.

(** [PrepMasksInputSpec] *)
Record Inputs : Type := {
  mask_dict_list : list (nested (gmap string string));
  prior_maps : string;
  DSURQE_regions : bool;
}.

Section RunInterface.
(** [os.environ], the working directory, and the two resamplers of the
    package, each returning the path of the file it wrote:
    [diagnosis_functions.resample_mask] and
    [analysis_functions.resample_IC_file]. *)
Variable environ : gmap string string.
Variable cwd : string.
Variable resample_mask : string → string → string.
Variable resample_IC_file : string → string → string.

(** [PrepMasks._run_interface]: the dictionary it stores in
    [mask_file_dict].  The images it writes on the way
    ([display_template.nii.gz], [edge_mask.nii.gz]) are named in the
    dictionary. *)
Definition run_interface (inputs : Inputs) : result (gmap string string) :=
  let merged := flatten_list (mask_dict_list inputs) in
  mask_dict ← match merged with
              | d :: _ => Ok d
              | [] => Raise (IndexError "list index out of range")
              end;
  brain_mask_file ← getitem mask_dict "mask_file";
  WM_mask_file ← getitem mask_dict "WM_mask_file";
  CSF_mask_file ← getitem mask_dict "CSF_mask_file";
  _ ← getitem mask_dict "preprocess_anat_template";
  let template_file := abspath cwd "display_template.nii.gz" in
  '(right_hem_mask_file, left_hem_mask_file) ←
    (if DSURQE_regions inputs then
       rabies_path ←
         (if decide (is_Some (environ !! "XDG_DATA_HOME")) then
            home ← getitem environ "XDG_DATA_HOME"; Ok (home +:+ "/rabies")
          else
            home ← getitem environ "HOME";
            Ok (home +:+ "/.local/share/rabies"));
       Ok (resample_mask
             (rabies_path +:+ "/DSURQE_40micron_right_hem_mask.nii.gz")
             brain_mask_file,
           resample_mask
             (rabies_path +:+ "/DSURQE_40micron_left_hem_mask.nii.gz")
             brain_mask_file)
     else Ok ("", ""));
  let prior_maps := resample_IC_file (prior_maps inputs) brain_mask_file in
  let edge_mask_file := abspath cwd "edge_mask.nii.gz" in
  Ok (<[ "template_file" := template_file ]>
      (<[ "brain_mask" := brain_mask_file ]>
      (<[ "WM_mask" := WM_mask_file ]>
      (<[ "CSF_mask" := CSF_mask_file ]>
      (<[ "edge_mask" := edge_mask_file ]>
      (<[ "right_hem_mask" := right_hem_mask_file ]>
      (<[ "left_hem_mask" := left_hem_mask_file ]>
      (<[ "prior_maps" := prior_maps ]> ∅)))))))).

(** The keys of the bundle. *)
Definition bundle_keys : gset string :=
  {[ "template_file"; "brain_mask"; "WM_mask"; "CSF_mask"; "edge_mask";
     "right_hem_mask"; "left_hem_mask"; "prior_maps" ]}.

End RunInterface.

End Masks.

(** ** [interfaces.py]: the per-scan diagnosis *)

Module Scan.

(** A float that is a number, or [nan]. *)
Inductive amplitude : Type :=
| NaN
| Amplitude (q : Q).

(** [a[i]] on a 1-D array of length [n]: [i] counts from the end when
    negative. *)
Definition np_getitem (a : list Q) (i : Z) : result Q :=
  let n := Z.of_nat (length a) in
  let j := (if i <? 0 then n + i else i)%Z in
  match (if (0 <=? j)%Z then a !! Z.to_nat j else None) with
  | Some x => Ok x
  | None => Raise (IndexError "index is out of bounds for axis 0")
  end.

(** Modelled from the spec: [diagnosis_functions.process_data] is not among
    the sources at hand.  Of the temporal features, it computes the
    "average component amplitude for signal vs confound index groups", and
    "an empty signal-index or confound-index list must not crash amplitude
    averaging - yields a defined no-data value (e.g., NaN) for that
    feature, not an exception". *)
Definition average_amplitude (amplitudes : list Q) (idx : list Z)
  : result amplitude :=
  match idx with
  | [] => Ok NaN
  | _ :: _ =>
      picked ← traverse (np_getitem amplitudes) idx;
      Ok (Amplitude (foldr Qplus 0%Q picked / inject_Z (Z.of_nat (length picked))))
  end.

(** The two amplitude features of [temporal_info]. *)
Record TemporalInfo : Type := {
  signal_amplitude : amplitude;
  confound_amplitude : amplitude;
}.

(** Modelled from the spec: the part of [process_data] that fills the two
    amplitude features from the per-component amplitudes of the prior fit
    and the two index groups. *)
Definition process_data (amplitudes : list Q)
    (prior_bold_idx prior_confound_idx : list Z) : result TemporalInfo :=
  s ← average_amplitude amplitudes prior_bold_idx;
  c ← average_amplitude amplitudes prior_confound_idx;
  Ok {| signal_amplitude := s; confound_amplitude := c |}.

(** [s.rsplit(sep)[0]]: the part of [s] before the first occurrence of
    [sep], all of [s] when there is none. *)
Fixpoint before_first (sep s : string) : string :=
  if String.prefix sep s then ""
  else match s with
       | EmptyString => ""
       | String c s' => String c (before_first sep s')
       end.

(** [pathlib.Path(p).name] for a path that does not end in a slash: what
    follows the last slash. *)
Fixpoint name_go (s acc : string) : string :=
  match s with
  | EmptyString => acc
  | String c s' =>
      if Ascii.eqb c "/"%char then name_go s' "" else name_go s' (acc +:+ String c "")
  end.

Definition path_name (p : string) : string := name_go p "".

Section RunInterface.
Context {num figure stats item : Type}.

(** Python's [int] on an item of a traits list, and
    [diagnosis_functions.scan_diagnosis], which renders the temporal and
    the spatial figure. *)
Variable int : item → result Z.
Variable scan_diagnosis : string → TemporalInfo → figure * figure.

(** [ScanDiagnosisInputSpec]; [component_amplitudes] stands for what
    [analysis_dict] holds on the fitted components. *)
Record Inputs : Type := {
  bold_file : string;
  component_amplitudes : list Q;
  prior_bold_idx : list item;
  prior_confound_idx : list item;
}.

Record Outputs : Type := {
  figure_temporal_diagnosis : string;
  figure_spatial_diagnosis : string;
  temporal_info : TemporalInfo;
}.

Definition temporal_png (figure_path : string) : string :=
  figure_path +:+ "_temporal_diagnosis.png".

Definition spatial_png (figure_path : string) : string :=
  figure_path +:+ "_spatial_diagnosis.png".

(** [ScanDiagnosis._run_interface] in the working directory [cwd]. *)
Definition run_interface (inputs : Inputs) (cwd : string)
  : io num figure stats Outputs :=
  prior_bold_idx ← lift (traverse int (prior_bold_idx inputs));
  prior_confound_idx ← lift (traverse int (prior_confound_idx inputs));
  temporal_info ← lift (process_data (component_amplitudes inputs)
                          prior_bold_idx prior_confound_idx);
  let '(fig, fig2) := scan_diagnosis (bold_file inputs) temporal_info in
  let filename_template := before_first ".nii" (path_name (bold_file inputs)) in
  let figure_path := abspath cwd filename_template in
  _ ← write (temporal_png figure_path) (Figure fig);
  _ ← write (spatial_png figure_path) (Figure fig2);
  mret {| figure_temporal_diagnosis := temporal_png figure_path;
          figure_spatial_diagnosis := spatial_png figure_path;
          temporal_info := temporal_info |}.

End RunInterface.

End Scan.


(** * Properties *)

(** ** Exceptions and effects *)

Lemma bind_Ok_inv {A B : Type} (r : result A) (k : A → result B) (b : B) :
  r ≫= k = Ok b → ∃ a, r = Ok a ∧ k a = Ok b.
Proof. destruct r as [a|e]; [eauto | discriminate]. Qed.

(** ** The geometry check of [run_main.py] *)

Module RunMainFacts.

Import RunMain.

Section Checks.
Variable ReadImage : string → Image.

(** When the check raises: the origins differ and the directions agree. *)
Lemma check_template_overlap_raises (template mask : string) :
  (∃ e, check_template_overlap ReadImage template mask = Raise e) ↔
  tuple_eqb (GetOrigin (ReadImage template)) (GetOrigin (ReadImage mask)) = false
  ∧ tuple_eqb (GetDirection (ReadImage template))
              (GetDirection (ReadImage mask)) = true.
Proof.
  unfold check_template_overlap.
  destruct (tuple_eqb (GetOrigin _) _), (tuple_eqb (GetDirection _) _);
    simpl; split.
  all: try (intros [e He]; discriminate He).
  all: try (intros [Ho Hd]; discriminate).
  - intros _. split; reflexivity.
  - intros _. eexists. reflexivity.
Qed.

(** Headers that agree pass the check. *)
Lemma check_template_overlap_same (template mask : string) :
  same_geometry ReadImage template mask = true →
  check_template_overlap ReadImage template mask = Ok tt.
Proof.
  unfold same_geometry, check_template_overlap.
  intros [Ho Hd]%andb_true_iff. rewrite Ho. reflexivity.
Qed.

(** Headers whose directions differ pass the check, whatever the origins. *)
Lemma check_template_overlap_direction (template mask : string) :
  tuple_eqb (GetDirection (ReadImage template))
            (GetDirection (ReadImage mask)) = false →
  check_template_overlap ReadImage template mask = Ok tt.
Proof.
  unfold check_template_overlap. intros ->.
  rewrite andb_false_r. reflexivity.
Qed.

End Checks.

(** A template in RAS orientation and a mask on the same origin whose
    direction matrix has the first two axes flipped. *)
Definition identity_direction : list Q := [1; 0; 0; 0; 1; 0; 0; 0; 1]%Q.
Definition flipped_direction : list Q := [-1; 0; 0; 0; -1; 0; 0; 0; 1]%Q.

Definition flipped_disk (path : string) : Image :=
  if String.eqb path "template.nii.gz" then
    {| GetOrigin := [0; 0; 0]%Q; GetDirection := identity_direction;
       GetArray := [3; 5; 8; 2]%Q |}
  else
    {| GetOrigin := [0; 0; 0]%Q; GetDirection := flipped_direction;
       GetArray := [0; 1; 1; 0]%Q |}.

(** C8, on the code: for a mask whose direction differs from the template's
    (same origin), the headers disagree and [check_template_overlap] returns
    without raising; so do the five checks of [preprocess] when every mask
    option names that file. *)
Theorem C8_mismatched_direction_accepted :
  same_geometry flipped_disk "template.nii.gz" "mask.nii.gz" = false
  ∧ check_template_overlap flipped_disk "template.nii.gz" "mask.nii.gz" = Ok tt
  ∧ ∃ opts',
      preprocess_masks flipped_disk (λ _, true) (λ path _, path)
        "/out" "template.nii.gz"
        {| brain_mask := "mask.nii.gz"; WM_mask := "mask.nii.gz";
           CSF_mask := "mask.nii.gz"; vascular_mask := "mask.nii.gz";
           labels := "mask.nii.gz" |} = Ok opts'.
Proof.
  split; [reflexivity|]. split; [reflexivity|].
  eexists. vm_compute. reflexivity.
Qed.

End RunMainFacts.

(** ** The mask bundle *)

Module MasksFacts.

Import Masks.

Section Bundle.
Variable environ : gmap string string.
Variable cwd : string.
Variable resample_mask : string → string → string.
Variable resample_IC_file : string → string → string.

(** C9: the dictionary a [PrepMasks] run returns has exactly the eight keys
    of the bundle, and with [DSURQE_regions] unset its two hemisphere entries
    are the empty string. *)
Theorem C9_bundle_keys (inputs : Inputs) (d : gmap string string) :
  run_interface environ cwd resample_mask resample_IC_file inputs = Ok d →
  dom d = bundle_keys
  ∧ (DSURQE_regions inputs = false →
     d !! "right_hem_mask" = Some "" ∧ d !! "left_hem_mask" = Some "").
Proof.
  unfold run_interface. intros Hrun.
  apply bind_Ok_inv in Hrun as (mask_dict & _ & Hrun).
  apply bind_Ok_inv in Hrun as (bm & _ & Hrun).
  apply bind_Ok_inv in Hrun as (wm & _ & Hrun).
  apply bind_Ok_inv in Hrun as (csf & _ & Hrun).
  apply bind_Ok_inv in Hrun as (tpl & _ & Hrun).
  apply bind_Ok_inv in Hrun as ([r l] & Hhem & Hrun).
  injection Hrun as <-. split.
  - unfold bundle_keys. rewrite !dom_insert_L, dom_empty_L. set_solver.
  - intros Hflag. rewrite Hflag in Hhem. injection Hhem as <- <-.
    split; reflexivity.
Qed.

End Bundle.

(** A call on one subject's mask dictionary, without the regional masks. *)
Definition one_subject : Inputs :=
  {| mask_dict_list :=
       [Nest [Item (<[ "mask_file" := "/d/mask.nii.gz" ]>
                    (<[ "WM_mask_file" := "/d/WM.nii.gz" ]>
                    (<[ "CSF_mask_file" := "/d/CSF.nii.gz" ]>
                    (<[ "preprocess_anat_template" := "/d/anat.nii.gz" ]> ∅))))]];
     prior_maps := "/d/melodic_IC.nii.gz";
     DSURQE_regions := false |}.

Lemma C9_bundle_keys_witness :
  ∃ d, run_interface ∅ "/work" (λ p _, p) (λ p _, p) one_subject = Ok d
       ∧ dom d = bundle_keys
       ∧ (DSURQE_regions one_subject = false →
          d !! "right_hem_mask" = Some "" ∧ d !! "left_hem_mask" = Some "").
Proof.
  eexists. split; [vm_compute; reflexivity|].
  apply (C9_bundle_keys ∅ "/work" (λ p _, p) (λ p _, p) one_subject).
  vm_compute. reflexivity.
Defined.

End MasksFacts.

(** ** Traces *)

Module IoFacts.

Section Events.
Context {num figure stats : Type}.

Local Abbreviation io := (io num figure stats).
Local Abbreviation event := (event num figure stats).
Local Abbreviation disk := (disk num figure stats).

Lemma io_eta {A : Type} (m : io A) : IO (trace m) (outcome m) = m.
Proof. destruct m; reflexivity. Qed.

Lemma trace_bind {A B : Type} (m : io A) (k : A → io B) :
  trace (m ≫= k) =
  match outcome m with
  | Ok a => trace m ++ trace (k a)
  | Raise _ => trace m
  end.
Proof. unfold mbind, io_bind. destruct (outcome m); reflexivity. Qed.

Lemma outcome_bind {A B : Type} (m : io A) (k : A → io B) :
  outcome (m ≫= k) =
  match outcome m with
  | Ok a => outcome (k a)
  | Raise e => Raise e
  end.
Proof. unfold mbind, io_bind. destruct (outcome m); reflexivity. Qed.

Lemma bind_lift_Ok {A B : Type} (a : A) (k : A → io B) :
  lift (Ok a) ≫= k = k a.
Proof. unfold mbind, io_bind. simpl. apply io_eta. Qed.

Lemma bind_lift_Raise {A B : Type} (e : exn) (k : A → io B) :
  lift (Raise e) ≫= k = raise e.
Proof. reflexivity. Qed.

Lemma bind_emit {B : Type} (ev : event) (k : unit → io B) :
  IO [ev] (Ok tt) ≫= k = IO (ev :: trace (k tt)) (outcome (k tt)).
Proof. reflexivity. Qed.

Lemma bind_ret {A B : Type} (a : A) (k : A → io B) : mret a ≫= k = k a.
Proof. unfold mbind, io_bind, mret, io_ret. simpl. apply io_eta. Qed.

(** A loop stops at the first pass that raises; the passes before it ran in
    full, in the order of the list. *)
Lemma for_each_run {A : Type} (xs : list A) (body : A → io unit) :
  (outcome (for_each xs body) = Ok tt
   ∧ trace (for_each xs body) = flat_map (λ x, trace (body x)) xs
   ∧ Forall (λ x, outcome (body x) = Ok tt) xs)
  ∨ (∃ pre x post e,
       xs = pre ++ x :: post
       ∧ Forall (λ x, outcome (body x) = Ok tt) pre
       ∧ outcome (body x) = Raise e
       ∧ outcome (for_each xs body) = Raise e
       ∧ trace (for_each xs body) =
           flat_map (λ x, trace (body x)) pre ++ trace (body x)).
Proof.
  induction xs as [|x xs IH]; simpl.
  - left. repeat split. constructor.
  - rewrite trace_bind, outcome_bind.
    destruct (outcome (body x)) as [[]|e] eqn:Hx.
    + destruct IH as [(Ho & Ht & Hall) | (pre & y & post & e & -> & Hpre & Hy & Ho & Ht)].
      * left. rewrite Ho, Ht. repeat split. constructor; assumption.
      * right. exists (x :: pre), y, post, e.
        rewrite Ho, Ht. simpl. rewrite app_assoc.
        repeat split; try assumption. constructor; assumption.
    + right. exists [], x, xs, e. repeat split; try assumption. constructor.
Qed.

Lemma replay_app (tr1 tr2 : list event) (d : disk) :
  replay (tr1 ++ tr2) d = replay tr2 (replay tr1 d).
Proof. apply foldl_app. Qed.

(** The last content a trace writes at a path, if it writes there. *)
Fixpoint last_write (path : string) (tr : list event)
  : option (content num figure stats) :=
  match tr with
  | [] => None
  | e :: tr' =>
      match last_write path tr' with
      | Some c => Some c
      | None =>
          match e with
          | WriteFile p c => if decide (p = path) then Some c else None
          | MkDir _ => None
          end
      end
  end.

Lemma last_write_app (path : string) (tr1 tr2 : list event) :
  last_write path (tr1 ++ tr2) =
  match last_write path tr2 with
  | Some c => Some c
  | None => last_write path tr1
  end.
Proof.
  induction tr1 as [|e tr1 IH]; simpl.
  - destruct (last_write path tr2); reflexivity.
  - rewrite IH. destruct (last_write path tr2); reflexivity.
Qed.

(** After a replay a path holds what the trace wrote there last, and what it
    held before when the trace does not write there. *)
Lemma replay_lookup (tr : list event) (d : disk) (path : string) :
  files (replay tr d) !! path =
  match last_write path tr with
  | Some c => Some c
  | None => files d !! path
  end.
Proof.
  revert d. induction tr as [|e tr IH]; intros d; simpl; [reflexivity|].
  fold (replay tr (apply_event d e)). rewrite IH.
  destruct (last_write path tr); [reflexivity|].
  destruct e as [p|p c]; simpl; [reflexivity|].
  destruct (decide (p = path)) as [->|Hne].
  - apply lookup_insert_eq.
  - apply lookup_insert_ne. assumption.
Qed.

(** A path no event of the trace writes. *)
Definition untouched (path : string) (tr : list event) : Prop :=
  Forall (λ e, match e with
               | WriteFile p _ => p ≠ path
               | MkDir _ => True
               end) tr.

Lemma untouched_last_write (path : string) (tr : list event) :
  untouched path tr → last_write path tr = None.
Proof.
  induction 1 as [|e tr He _ IH]; simpl; [reflexivity|].
  rewrite IH. destruct e as [p|p c]; [reflexivity|].
  destruct (decide (p = path)); [contradiction|reflexivity].
Qed.

Lemma replay_untouched (tr : list event) (d : disk) (path : string) :
  untouched path tr → files (replay tr d) !! path = files d !! path.
Proof.
  intros H. rewrite replay_lookup, untouched_last_write; [reflexivity|assumption].
Qed.

Lemma outputs_app (tr1 tr2 : list event) :
  outputs (tr1 ++ tr2) = outputs tr1 ++ outputs tr2.
Proof. apply omap_app. Qed.

Lemma tables_app (tr1 tr2 : list event) :
  tables (tr1 ++ tr2) = tables tr1 ++ tables tr2.
Proof. apply omap_app. Qed.

End Events.

End IoFacts.

(** ** Names of output files *)

Module PathFacts.

Fixpoint chars (s : string) : list ascii :=
  match s with
  | EmptyString => []
  | String c s' => c :: chars s'
  end.

Lemma chars_app (a b : string) : chars (a +:+ b) = chars a ++ chars b.
Proof. induction a as [|c a IH]; simpl; [reflexivity|]. rewrite IH. reflexivity. Qed.

(** The last [n] characters of a name, last first. *)
Definition ending (n : nat) (s : string) : list ascii :=
  take n (reverse (chars s)).

Lemma ending_app (n : nat) (a b : string) :
  n ≤ length (chars b) → ending n (a +:+ b) = ending n b.
Proof.
  intros Hn. unfold ending. rewrite chars_app, reverse_app.
  apply take_app_le. rewrite length_reverse. exact Hn.
Qed.

Lemma length_chars_app (a b : string) :
  length (chars (a +:+ b)) = length (chars a) + length (chars b).
Proof. rewrite chars_app. apply length_app. Qed.

(** Names that end differently are different. *)
Lemma ending_neq (n : nat) (s1 s2 : string) :
  ending n s1 ≠ ending n s2 → s1 ≠ s2.
Proof. intros Hne ->. apply Hne. reflexivity. Qed.

Import Dataset Scan.

Lemma ending_stats_csv (out_dir family : string) (i : nat) :
  ending 6 (stats_csv out_dir family i) = ending 6 "_QC_stats.csv".
Proof.
  unfold stats_csv. rewrite !ending_app; [reflexivity|..];
    rewrite ?length_chars_app; simpl; lia.
Qed.

Lemma ending_maps_png (out_dir family : string) (i : nat) :
  ending 6 (maps_png out_dir family i) = ending 6 "_QC_maps.png".
Proof.
  unfold maps_png. rewrite !ending_app; [reflexivity|..];
    rewrite ?length_chars_app; simpl; lia.
Qed.

Lemma ending_crosscorr_png (out_dir : string) :
  ending 6 (crosscorr_png out_dir) = ending 6 "/spatial_crosscorrelations.png".
Proof. unfold crosscorr_png. rewrite ending_app; [reflexivity|simpl; lia]. Qed.

Lemma ending_temp_img (tmppath : string) :
  ending 6 (temp_img tmppath) = ending 6 "/temp_img.nii.gz".
Proof. unfold temp_img. rewrite ending_app; [reflexivity|simpl; lia]. Qed.

Lemma ending_temporal_png (figure_path : string) :
  ending 6 (temporal_png figure_path) = ending 6 "_temporal_diagnosis.png".
Proof. unfold temporal_png. rewrite ending_app; [reflexivity|simpl; lia]. Qed.

Lemma ending_spatial_png (figure_path : string) :
  ending 6 (spatial_png figure_path) = ending 6 "_spatial_diagnosis.png".
Proof. unfold spatial_png. rewrite ending_app; [reflexivity|simpl; lia]. Qed.

(** A per-scan figure: the two names [ScanDiagnosis] writes. *)
Definition per_scan_output (path : string) : Prop :=
  ∃ figure_path, path = temporal_png figure_path ∨ path = spatial_png figure_path.

(** The names the dataset diagnosis writes to. *)
Definition dataset_path (out_dir tmppath path : string) : Prop :=
  path = crosscorr_png out_dir
  ∨ path = temp_img tmppath
  ∨ ∃ family i, path = maps_png out_dir family i
                ∨ path = stats_csv out_dir family i.

Lemma per_scan_not_dataset (out_dir tmppath path : string) :
  per_scan_output path → ¬ dataset_path out_dir tmppath path.
Proof.
  intros [figure_path Hp] Hd.
  assert (He : ending 6 path = ending 6 "_temporal_diagnosis.png").
  { destruct Hp as [->| ->];
      [apply ending_temporal_png|rewrite ending_spatial_png; reflexivity]. }
  destruct Hd as [->|[->|(family & i & [->| ->])]].
  - rewrite ending_crosscorr_png in He. vm_compute in He. discriminate.
  - rewrite ending_temp_img in He. vm_compute in He. discriminate.
  - rewrite ending_maps_png in He. vm_compute in He. discriminate.
  - rewrite ending_stats_csv in He. vm_compute in He. discriminate.
Qed.

Lemma stats_csv_not_temp_img (out_dir family tmppath : string) (i : nat) :
  temp_img tmppath ≠ stats_csv out_dir family i.
Proof.
  apply (ending_neq 6). rewrite ending_temp_img, ending_stats_csv.
  vm_compute. discriminate.
Qed.

End PathFacts.

(** ** The dataset-level diagnosis *)

Module DatasetFacts.

Import Np Dataset IoFacts.

(** The indices before a position of [range]. *)
Lemma seq_split (s n : nat) (pre : list nat) (x : nat) (post : list nat) :
  seq s n = pre ++ x :: post →
  pre = seq s (length pre) ∧ x = s + length pre ∧ length pre < n.
Proof.
  revert s n. induction pre as [|p pre IH]; intros s n H.
  - destruct n as [|n]; [discriminate|]. simpl in H.
    injection H as <- _. simpl. split; [reflexivity|]. split; lia.
  - destruct n as [|n]; [discriminate|]. simpl in H.
    injection H as <- H. apply IH in H as (Hpre & -> & Hlt).
    simpl. rewrite <- Hpre. split; [reflexivity|]. split; lia.
Qed.

Section Loops.
Context {num figure stats : Type} `{!Collaborators num figure stats}.

Local Abbreviation io := (io num figure stats).
Local Abbreviation event := (event num figure stats).
Local Abbreviation scan := (SpatialInfo num * AnalysisDict * FileDict)%type.

(** The names of a family's outputs for the indices below [n], in the order
    the loop writes them. *)
Definition family_paths (out_dir family : string) (n : nat) : list string :=
  flat_map (λ i, [maps_png out_dir family i; stats_csv out_dir family i])
           (seq 0 n).

(** What one pass of a per-prior loop writes for index [i]: the figure and
    the one-row table computed from the maps of component [i] and from row
    [i] of the priors; nothing when either index is out of bounds. *)
Definition QC_files (out_dir family : string) (maps_list : list (mat num))
    (prior_maps : mat num) (mask_file : string)
    (std_maps VE_maps : list (vec num)) (tdof_list : list Z)
    (template_file : string) (i : nat) : list event :=
  match take_axis1 maps_list i, prior_maps !! i with
  | Ok FC_maps, Some prior_map =>
      let r := analysis_QC FC_maps prior_map mask_file std_maps VE_maps
                           tdof_list template_file in
      [WriteFile (maps_png out_dir family i) (Figure r.2);
       WriteFile (stats_csv out_dir family i) (Csv [r.1])]
  | _, _ => []
  end.

Definition QC_ready (maps_list : list (mat num)) (prior_maps : mat num)
    (i : nat) : Prop :=
  (∃ FC_maps, take_axis1 maps_list i = Ok FC_maps) ∧ is_Some (prior_maps !! i).

Section Loop.
Variables (out_dir family : string) (maps_list : list (mat num))
  (prior_maps : mat num) (mask_file : string)
  (std_maps VE_maps : list (vec num)) (tdof_list : list Z)
  (template_file : string).

Local Abbreviation files_at :=
  (QC_files out_dir family maps_list prior_maps mask_file std_maps VE_maps
            tdof_list template_file).
Local Abbreviation loop :=
  (QC_loop out_dir family maps_list prior_maps mask_file std_maps VE_maps
           tdof_list template_file).

Lemma take_axis1_cases (i : nat) :
  (∃ FC_maps, take_axis1 maps_list i = Ok FC_maps)
  ∨ (∃ msg, take_axis1 maps_list i = Raise (IndexError msg)).
Proof.
  unfold take_axis1. destruct (mapM _ _); [left|right]; eauto.
Qed.

(** A per-prior loop over [n] indices writes the files of the indices below
    some [k], in index order; it ends normally with [k = n], or raises
    [IndexError] at index [k < n], which is out of bounds. *)
Lemma QC_loop_run (n : nat) :
  ∃ k, k ≤ n
       ∧ trace (QC_loop out_dir family maps_list prior_maps n mask_file
                  std_maps VE_maps tdof_list template_file)
         = flat_map files_at (seq 0 k)
       ∧ (∀ i, i < k → QC_ready maps_list prior_maps i)
       ∧ ((outcome (QC_loop out_dir family maps_list prior_maps n mask_file
                      std_maps VE_maps tdof_list template_file) = Ok tt
           ∧ k = n)
          ∨ (k < n ∧ ¬ QC_ready maps_list prior_maps k
             ∧ ∃ msg, outcome (QC_loop out_dir family maps_list prior_maps n
                                 mask_file std_maps VE_maps tdof_list
                                 template_file) = Raise (IndexError msg))).
Proof.
  unfold QC_loop, for_range.
  match goal with |- context [for_each _ ?b] => set (body := b) end.
  assert (Hbody : ∀ i,
    (QC_ready maps_list prior_maps i ∧ outcome (body i) = Ok tt
     ∧ trace (body i) = files_at i)
    ∨ (¬ QC_ready maps_list prior_maps i ∧ trace (body i) = []
       ∧ files_at i = []
       ∧ ∃ msg, outcome (body i) = Raise (IndexError msg))).
  { intros i. unfold body, QC_files, QC_ready.
    destruct (take_axis1_cases i) as [[FC ->]|[msg ->]].
    - rewrite bind_lift_Ok. destruct (prior_maps !! i) as [row|].
      + rewrite bind_lift_Ok.
        destruct (analysis_QC _ _ _ _ _ _ _) as [s f]. left.
        repeat split; eauto.
      + right. repeat split; eauto. intros [_ []]; discriminate.
    - right. repeat split; eauto. intros [[FC ?] _]; discriminate. }
  assert (Hflat : ∀ l, Forall (λ i, outcome (body i) = Ok tt) l →
            flat_map (λ i, trace (body i)) l = flat_map files_at l
            ∧ ∀ i, i ∈ l → QC_ready maps_list prior_maps i).
  { induction 1 as [|i l Hi _ [IH1 IH2]]; simpl.
    - split; [reflexivity|]. intros i Hin. inversion Hin.
    - destruct (Hbody i) as [(Hr & _ & Ht)|(_ & _ & _ & msg & He)];
        [|congruence].
      rewrite Ht, IH1. split; [reflexivity|].
      intros j [->|Hj]%elem_of_cons; auto. }
  destruct (for_each_run (seq 0 n) body)
    as [(Ho & Ht & Hall)|(pre & x & post & e & Hseq & Hpre & Hx & Ho & Ht)].
  - exists n. destruct (Hflat _ Hall) as [Hf Hr].
    split; [lia|]. split; [congruence|]. split.
    + intros i Hi. apply Hr, elem_of_seq. lia.
    + left. split; [assumption|reflexivity].
  - apply seq_split in Hseq as (Hpre_eq & -> & Hlt). simpl in *.
    exists (length pre). destruct (Hflat _ Hpre) as [Hf Hr].
    destruct (Hbody (length pre)) as [(_ & Hok & _)|(Hnr & Htr & _ & msg & He)];
      [congruence|].
    split; [lia|]. split.
    + rewrite Ht, Htr, app_nil_r, Hf, <- Hpre_eq. reflexivity.
    + split.
      * intros i Hi. apply Hr. rewrite Hpre_eq. apply elem_of_seq. lia.
      * right. split; [assumption|]. split; [assumption|].
        exists msg. congruence.
Qed.

(** The paths and tables among the files of ready indices. *)
Lemma outputs_QC_files (k : nat) :
  (∀ i, i < k → QC_ready maps_list prior_maps i) →
  outputs (flat_map files_at (seq 0 k)) = family_paths out_dir family k
  ∧ Forall (λ t, length t.2 = 1) (tables (flat_map files_at (seq 0 k))).
Proof.
  unfold family_paths.
  assert (H : ∀ l, (∀ i, i ∈ l → QC_ready maps_list prior_maps i) →
    outputs (flat_map files_at l)
    = flat_map (λ i, [maps_png out_dir family i; stats_csv out_dir family i]) l
    ∧ Forall (λ t, length t.2 = 1) (tables (flat_map files_at l))).
  { induction l as [|i l IH]; intros Hl; simpl.
    - split; [reflexivity|constructor].
    - destruct IH as [IH1 IH2].
      { intros j Hj. apply Hl. right. assumption. }
      destruct (Hl i) as [[FC HFC] [row Hrow]]; [left|].
      assert (Hi : ∃ s f, files_at i =
                [WriteFile (maps_png out_dir family i) (Figure f);
                 WriteFile (stats_csv out_dir family i) (Csv [s])]).
      { unfold QC_files. rewrite HFC, Hrow. eauto. }
      destruct Hi as (s & f & Hi).
      rewrite outputs_app, tables_app, IH1, Hi. simpl. split; [reflexivity|].
      constructor; [reflexivity|assumption]. }
  intros Hk. apply H. intros i Hi%elem_of_seq. apply Hk. lia.
Qed.

End Loop.

(** *** The loop over the scans *)

(** The seed maps of every scan, masked: the list comprehension the loop
    builds scan by scan. *)
Definition load_seeds (volume_indices : list bool) (scans : list scan)
  : result (list (list (vec num))) :=
  traverse (λ t : scan,
              traverse (λ seed_map, bool_index (nb_load seed_map) volume_indices)
                       (seed_map_files t.1.2))
           scans.

(** The lists after the loop, as comprehensions over the scans. *)
Definition stacked_of (acc : Stacked num) (scans : list scan)
    (seeds : list (list (vec num))) : Stacked num :=
  {| std_maps := std_maps acc ++ ((λ t : scan, temporal_std t.1.1) <$> scans);
     VE_maps := VE_maps acc ++ ((λ t : scan, VE_spatial t.1.1) <$> scans);
     DR_maps_list := DR_maps_list acc ++ ((λ t : scan, DR_BOLD t.1.1) <$> scans);
     seed_maps_list := seed_maps_list acc ++ seeds;
     dual_ICA_maps_list :=
       dual_ICA_maps_list acc ++ ((λ t : scan, dual_ICA_maps t.1.1) <$> scans);
     tdof_list := tdof_list acc ++ ((λ t : scan, tDOF (CR_data_dict t.2)) <$> scans);
     spatial_info :=
       match last scans with
       | Some t => Some t.1.1
       | None => spatial_info acc
       end |}.

Lemma stack_scans_eq (volume_indices : list bool) (scans : list scan)
    (acc : Stacked num) :
  stack_scans volume_indices acc scans =
  seeds ← load_seeds volume_indices scans; Ok (stacked_of acc scans seeds).
Proof.
  revert acc. induction scans as [|[[s a] f] scans IH]; intros acc.
  - simpl. unfold stacked_of. simpl. rewrite !app_nil_r.
    destruct acc; reflexivity.
  - cbn [stack_scans load_seeds traverse]. unfold stack_scan. simpl.
    destruct (traverse _ (seed_map_files a)) as [seed_list|e]; [|reflexivity].
    cbn [mbind result_bind]. rewrite IH. fold (load_seeds volume_indices scans).
    destruct (load_seeds volume_indices scans) as [seeds|e]; [|reflexivity].
    cbn [mbind result_bind]. unfold stacked_of. simpl.
    rewrite <- !app_assoc. simpl. f_equal. f_equal.
    rewrite last_cons. destruct (last scans); reflexivity.
Qed.

(** The checks [np.array] makes on the four stacks. *)
Definition consistent (scans : list scan) : bool :=
  homogeneous ((λ t : scan, temporal_std t.1.1) <$> scans)
  && homogeneous ((λ t : scan, VE_spatial t.1.1) <$> scans)
  && (homogeneous ((λ t : scan, DR_BOLD t.1.1) <$> scans)
      && homogeneous (concat ((λ t : scan, DR_BOLD t.1.1) <$> scans)))
  && (homogeneous ((λ t : scan, dual_ICA_maps t.1.1) <$> scans)
      && homogeneous (concat ((λ t : scan, dual_ICA_maps t.1.1) <$> scans))).

Lemma stack_maps_eq (volume_indices : list bool) (scans : list scan) :
  stack_maps volume_indices scans =
  seeds ← load_seeds volume_indices scans;
  if consistent scans then Ok (stacked_of no_scan scans seeds)
  else Raise (ValueError inhomogeneous_msg).
Proof.
  unfold stack_maps. rewrite stack_scans_eq.
  destruct (load_seeds volume_indices scans) as [seeds|e]; [|reflexivity].
  cbn [mbind result_bind]. unfold consistent, array2, array3. simpl.
  destruct (homogeneous ((λ t : scan, temporal_std t.1.1) <$> scans));
    [|reflexivity].
  destruct (homogeneous ((λ t : scan, VE_spatial t.1.1) <$> scans));
    [|reflexivity].
  cbn [mbind result_bind andb].
  destruct (homogeneous ((λ t : scan, DR_BOLD t.1.1) <$> scans) && _);
    [|reflexivity].
  cbn [mbind result_bind andb].
  destruct (homogeneous ((λ t : scan, dual_ICA_maps t.1.1) <$> scans) && _);
    reflexivity.
Qed.

(** *** The events of a complete run *)

(** The priors of the seed branch after resampling and masking, and the
    temporary images written on the way. *)
Definition resampled_priors (mask_file : string) (volume_indices : list bool)
    (seed_priors : list string) : list (vec num) :=
  (λ prior_map, select volume_indices (sitk_resample prior_map mask_file))
    <$> seed_priors.

Definition resample_events (tmppath mask_file : string)
    (seed_priors : list string) : list event :=
  (λ prior_map,
     WriteFile (temp_img tmppath) (Nifti (sitk_resample prior_map mask_file)))
    <$> seed_priors.

(** What lines 233-268 do when nothing raises: for each prior index in
    increasing order the figure and the table of the dual regression maps,
    then the same for the dual ICA maps when the stack has components, then,
    when seed priors are given, the temporary directory, the resampled
    priors, and the figure and table of each seed in increasing order. *)
Definition per_prior_plan (out_dir tmppath mask_file template_file : string)
    (volume_indices : list bool) (seed_priors : list string)
    (st : Stacked num) : list event :=
  match spatial_info st with
  | None => []
  | Some s =>
      let N := length (prior_maps s) in
      flat_map (QC_files out_dir "DR" (DR_maps_list st) (prior_maps s)
                  mask_file (std_maps st) (VE_maps st) (tdof_list st)
                  template_file) (seq 0 N)
      ++ (if 0 <? shape1 (dual_ICA_maps_list st) then
            flat_map (QC_files out_dir "dual_ICA" (dual_ICA_maps_list st)
                        (prior_maps s) mask_file (std_maps st) (VE_maps st)
                        (tdof_list st) template_file) (seq 0 N)
          else [])
      ++ (if 0 <? length seed_priors then
            MkDir tmppath
            :: resample_events tmppath mask_file seed_priors
            ++ flat_map (QC_files out_dir "seed_FC" (seed_maps_list st)
                           (resampled_priors mask_file volume_indices
                                             seed_priors)
                           mask_file (std_maps st) (VE_maps st) (tdof_list st)
                           template_file) (seq 0 (length seed_priors))
          else [])
  end.

(** The events of a run in which nothing raises after the sample size
    check. *)
Definition plan (inputs : Inputs num) (cwd tmppath : string) : list event :=
  let merged_spatial_info := flatten_list (spatial_info_list inputs) in
  if length merged_spatial_info <? 3 then []
  else
    let out_dir := abspath cwd "dataset_diagnosis" in
    MkDir out_dir
    :: match getitem (mask_file_dict inputs) "template_file",
             getitem (mask_file_dict inputs) "brain_mask" with
       | Ok template_file, Ok mask_file =>
           let volume_indices := map nonzero (nb_load mask_file) in
           WriteFile (crosscorr_png out_dir)
             (Figure (spatial_crosscorrelations merged_spatial_info
                        (otsu_scaling template_file) mask_file))
           :: match stack_maps volume_indices
                      (zip3 merged_spatial_info
                            (flatten_list (analysis_dict_list inputs))
                            (flatten_list (file_dict_list inputs))) with
              | Ok st =>
                  per_prior_plan out_dir tmppath mask_file template_file
                    volume_indices (seed_prior_maps inputs) st
              | Raise _ => []
              end
       | _, _ => []
       end.

(** A computation follows a list of events when its trace is a prefix of the
    list, and all of it when the computation ends normally. *)
Definition follows {A : Type} (m : io A) (E : list event) : Prop :=
  trace m `prefix_of` E ∧ ∀ a, outcome m = Ok a → trace m = E.

Lemma follows_bind {A B : Type} (m : io A) (k : A → io B)
    (E1 E2 : list event) :
  follows m E1 → (∀ a, outcome m = Ok a → follows (k a) E2) →
  follows (m ≫= k) (E1 ++ E2).
Proof.
  intros [Hp He] Hk. unfold follows. rewrite trace_bind, outcome_bind.
  destruct (outcome m) as [a|e].
  - destruct (Hk a eq_refl) as [Hp' He']. rewrite (He a eq_refl). split.
    + apply prefix_app. assumption.
    + intros b Hb. rewrite (He' b Hb). reflexivity.
  - split; [|discriminate]. etrans; [exact Hp|apply prefix_app_r; reflexivity].
Qed.

Lemma follows_lift {A B : Type} (r : result A) (k : A → io B)
    (E : list event) :
  (∀ a, r = Ok a → follows (k a) E) → follows (lift r ≫= k) E.
Proof.
  intros Hk. change E with ([] ++ E). apply follows_bind.
  - split; [apply prefix_nil|reflexivity].
  - exact Hk.
Qed.

Lemma follows_emit {B : Type} (ev : event) (k : unit → io B)
    (E : list event) :
  follows (k tt) E → follows (IO [ev] (Ok tt) ≫= k) (ev :: E).
Proof.
  intros Hk. change (ev :: E) with ([ev] ++ E). apply follows_bind.
  - split; [reflexivity|reflexivity].
  - intros [] _. exact Hk.
Qed.

Lemma follows_ret {A : Type} (a : A) : follows (mret a : io A) [].
Proof. split; [reflexivity|reflexivity]. Qed.

Lemma follows_raise {A : Type} (e : exn) (E : list event) :
  follows (raise e : io A) E.
Proof. split; [apply prefix_nil|discriminate]. Qed.

Lemma follows_QC_loop (out_dir family : string) (maps_list : list (mat num))
    (priors : mat num) (mask_file : string)
    (std VE : list (vec num)) (tdof : list Z) (template_file : string)
    (n : nat) :
  follows (QC_loop out_dir family maps_list priors n mask_file std VE tdof
                   template_file)
          (flat_map (QC_files out_dir family maps_list priors mask_file std VE
                              tdof template_file) (seq 0 n)).
Proof.
  destruct (QC_loop_run out_dir family maps_list priors mask_file std VE tdof
              template_file n) as (k & Hk & Ht & _ & Hend).
  unfold follows. rewrite Ht. split.
  - replace n with (k + (n - k)) by lia. rewrite seq_app, flat_map_app.
    apply prefix_app_r. reflexivity.
  - intros a Ha. destruct Hend as [[_ ->]|(_ & _ & msg & Hmsg)];
      [reflexivity|congruence].
Qed.

Lemma resample_seed_priors_snoc (tmppath mask_file : string)
    (volume_indices : list bool) (ps : list string) (p : string) :
  resample_seed_priors tmppath mask_file volume_indices (ps ++ [p]) =
  (prior_maps ← resample_seed_priors tmppath mask_file volume_indices ps;
   _ ← write (temp_img tmppath) (Nifti (sitk_resample p mask_file));
   v ← lift (bool_index (sitk_resample p mask_file) volume_indices);
   mret (prior_maps ++ [v])).
Proof. unfold resample_seed_priors. rewrite foldl_app. reflexivity. Qed.

(** The resampling loop writes one temporary image per prior, and returns
    the masked priors. *)
Lemma follows_resample (tmppath mask_file : string)
    (volume_indices : list bool) (seed_priors : list string) :
  follows (resample_seed_priors tmppath mask_file volume_indices seed_priors)
          (resample_events tmppath mask_file seed_priors)
  ∧ ∀ l, outcome (resample_seed_priors tmppath mask_file volume_indices
                    seed_priors) = Ok l →
         l = resampled_priors mask_file volume_indices seed_priors.
Proof.
  induction seed_priors as [|p ps IH] using rev_ind.
  - split; [apply follows_ret|]. intros l [= <-]. reflexivity.
  - rewrite resample_seed_priors_snoc. destruct IH as [IHf IHl].
    unfold resample_events, resampled_priors. rewrite !fmap_app.
    split.
    + apply follows_bind; [exact IHf|]. intros prior_maps _.
      apply follows_emit. apply follows_lift. intros v _. apply follows_ret.
    + intros l. rewrite outcome_bind.
      destruct (outcome (resample_seed_priors _ _ _ ps))
        as [prior_maps|e] eqn:Hps; [|discriminate].
      rewrite (IHl prior_maps eq_refl). unfold write. rewrite bind_emit.
      cbn [outcome]. rewrite outcome_bind. cbn [outcome lift].
      unfold bool_index. destruct (_ =? _); [|discriminate].
      intros [= <-]. reflexivity.
Qed.

Lemma array2_Ok (rows rows' : list (vec num)) :
  array2 rows = Ok rows' → rows' = rows.
Proof. unfold array2. destruct (homogeneous rows); congruence. Qed.

Lemma array3_Ok (stacks stacks' : list (mat num)) :
  array3 stacks = Ok stacks' → stacks' = stacks.
Proof. unfold array3. destruct (_ && _); congruence. Qed.

Lemma per_prior_follows (out_dir tmppath mask_file template_file : string)
    (volume_indices : list bool) (seed_priors : list string)
    (st : Stacked num) :
  follows (per_prior_QC out_dir tmppath mask_file template_file
             volume_indices seed_priors st)
          (per_prior_plan out_dir tmppath mask_file template_file
             volume_indices seed_priors st).
Proof.
  unfold per_prior_QC, per_prior_plan.
  destruct (spatial_info st) as [s|]; [|apply follows_raise].
  rewrite bind_lift_Ok.
  apply follows_bind; [apply follows_QC_loop|]. intros _ _.
  apply follows_bind.
  { destruct (0 <? shape1 _); [apply follows_QC_loop|apply follows_ret]. }
  intros _ _. destruct (0 <? length seed_priors); [|apply follows_ret].
  apply follows_emit.
  destruct (follows_resample tmppath mask_file volume_indices seed_priors)
    as [Hf Hl].
  apply follows_bind; [exact Hf|]. intros l Hlo. apply Hl in Hlo as ->.
  apply follows_lift. intros l ->%array2_Ok.
  apply follows_lift. intros l' ->%array3_Ok.
  unfold resampled_priors at 2. rewrite length_fmap.
  apply follows_QC_loop.
Qed.

(** The trace of a run is a prefix of its plan, and the whole plan when the
    run ends normally. *)
Lemma run_follows (inputs : Inputs num) (cwd tmppath : string) :
  follows (run_interface inputs cwd tmppath) (plan inputs cwd tmppath).
Proof.
  unfold run_interface, plan.
  destruct (_ <? 3); [apply follows_raise|].
  apply follows_emit.
  destruct (getitem _ "template_file") as [template_file|e];
    [|apply follows_raise].
  rewrite bind_lift_Ok.
  destruct (getitem _ "brain_mask") as [mask_file|e]; [|apply follows_raise].
  rewrite bind_lift_Ok. apply follows_emit.
  destruct (stack_maps _ _) as [st|e]; [|apply follows_raise].
  rewrite bind_lift_Ok.
  rewrite <- (app_nil_r (per_prior_plan _ _ _ _ _ _ _)).
  apply follows_bind; [apply per_prior_follows|].
  intros _ _. apply follows_ret.
Qed.

(** *** The sample size check *)

(** C1: when the flattened [spatial_info_list] has fewer than 3 entries the
    run raises the [ValueError] of the sample size check before any event:
    its trace is empty, and on any disk the run leaves the files and the
    directories as they were (no [dataset_diagnosis] directory is made). *)
Theorem C1_insufficient_sample (inputs : Inputs num) (cwd tmppath : string)
    (d : disk num figure stats) :
  length (flatten_list (spatial_info_list inputs)) < 3 →
  outcome (run_interface inputs cwd tmppath) = Raise (ValueError sample_size_msg)
  ∧ trace (run_interface inputs cwd tmppath) = []
  ∧ run_on inputs cwd tmppath d = (Raise (ValueError sample_size_msg), d).
Proof.
  intros Hlt. unfold run_on, run_interface.
  destruct (_ <? 3) eqn:Hcheck.
  - repeat split.
  - apply Nat.ltb_ge in Hcheck. lia.
Qed.

Lemma run_trace_head (inputs : Inputs num) (cwd tmppath : string) :
  3 ≤ length (flatten_list (spatial_info_list inputs)) →
  ∃ tr, trace (run_interface inputs cwd tmppath)
        = MkDir (abspath cwd "dataset_diagnosis") :: tr.
Proof.
  intros Hge. unfold run_interface.
  destruct (_ <? 3) eqn:Hcheck.
  - apply Nat.ltb_lt in Hcheck. lia.
  - unfold makedirs. rewrite bind_emit. eexists. reflexivity.
Qed.

(** *** Stacks of inconsistent shape *)

Lemma homogeneous_lengths {A : Type} (rows : list (list A)) (r1 r2 : list A) :
  homogeneous rows = true → r1 ∈ rows → r2 ∈ rows → length r1 = length r2.
Proof.
  destruct rows as [|r rest]; [intros _ H; inversion H|].
  simpl. intros Hall.
  assert (H : ∀ x, x ∈ r :: rest → length x = length r).
  { intros x [->|Hx]%elem_of_cons; [reflexivity|].
    rewrite forallb_forall in Hall. apply Nat.eqb_eq, Hall.
    apply list_elem_of_In. assumption. }
  intros H1 H2. rewrite (H _ H1), (H _ H2). reflexivity.
Qed.

Lemma elem_of_concat {A : Type} (x : A) (ls : list (list A)) :
  (∃ l, x ∈ l ∧ l ∈ ls) → x ∈ concat ls.
Proof.
  intros (l & Hx & Hl). apply list_elem_of_In, in_concat.
  exists l. split; apply list_elem_of_In; assumption.
Qed.

(** Two of the scans disagree on the voxel length of one of the stacked
    features: the temporal standard deviation map, the variance explained
    map, a dual regression map or a dual ICA map. *)
Definition voxel_length_mismatch (scans : list scan) : Prop :=
  ∃ t1 t2 : scan, t1 ∈ scans ∧ t2 ∈ scans ∧
    (length (temporal_std t1.1.1) ≠ length (temporal_std t2.1.1)
     ∨ length (VE_spatial t1.1.1) ≠ length (VE_spatial t2.1.1)
     ∨ (∃ r1 r2, r1 ∈ DR_BOLD t1.1.1 ∧ r2 ∈ DR_BOLD t2.1.1
                 ∧ length r1 ≠ length r2)
     ∨ (∃ r1 r2, r1 ∈ dual_ICA_maps t1.1.1 ∧ r2 ∈ dual_ICA_maps t2.1.1
                 ∧ length r1 ≠ length r2)).

Lemma mismatch_inconsistent (scans : list scan) :
  voxel_length_mismatch scans → consistent scans = false.
Proof.
  intros (t1 & t2 & H1 & H2 & Hne).
  apply not_true_is_false. unfold consistent.
  rewrite !andb_true_iff. intros [[[Hstd HVE] [_ HDR]] [_ Hdual]].
  destruct Hne as [Hne|[Hne|[(r1 & r2 & Hr1 & Hr2 & Hne)|(r1 & r2 & Hr1 & Hr2 & Hne)]]].
  - apply Hne. apply (homogeneous_lengths _ _ _ Hstd).
    + apply (list_elem_of_fmap_2 (λ t : scan, temporal_std t.1.1)). exact H1.
    + apply (list_elem_of_fmap_2 (λ t : scan, temporal_std t.1.1)). exact H2.
  - apply Hne. apply (homogeneous_lengths _ _ _ HVE).
    + apply (list_elem_of_fmap_2 (λ t : scan, VE_spatial t.1.1)). exact H1.
    + apply (list_elem_of_fmap_2 (λ t : scan, VE_spatial t.1.1)). exact H2.
  - apply Hne. apply (homogeneous_lengths _ _ _ HDR).
    + apply elem_of_concat. exists (DR_BOLD t1.1.1). split; [exact Hr1|].
      apply (list_elem_of_fmap_2 (λ t : scan, DR_BOLD t.1.1)). exact H1.
    + apply elem_of_concat. exists (DR_BOLD t2.1.1). split; [exact Hr2|].
      apply (list_elem_of_fmap_2 (λ t : scan, DR_BOLD t.1.1)). exact H2.
  - apply Hne. apply (homogeneous_lengths _ _ _ Hdual).
    + apply elem_of_concat. exists (dual_ICA_maps t1.1.1).
      split; [exact Hr1|].
      apply (list_elem_of_fmap_2 (λ t : scan, dual_ICA_maps t.1.1)). exact H1.
    + apply elem_of_concat. exists (dual_ICA_maps t2.1.1).
      split; [exact Hr2|].
      apply (list_elem_of_fmap_2 (λ t : scan, dual_ICA_maps t.1.1)). exact H2.
Qed.

(** The scans the loop of lines 215-226 visits. *)
Definition scans_of (inputs : Inputs num) : list scan :=
  zip3 (flatten_list (spatial_info_list inputs))
       (flatten_list (analysis_dict_list inputs))
       (flatten_list (file_dict_list inputs)).

(** When the stacks cannot be built the run raises after the
    cross-correlation figure at the latest, and before any table. *)
Lemma run_stack_failure (inputs : Inputs num) (cwd tmppath : string) :
  (∀ volume_indices,
     ∃ e, stack_maps volume_indices (scans_of inputs) = Raise e) →
  ∃ e, outcome (run_interface inputs cwd tmppath) = Raise e
       ∧ tables (trace (run_interface inputs cwd tmppath)) = []
       ∧ (outputs (trace (run_interface inputs cwd tmppath)) = []
          ∨ outputs (trace (run_interface inputs cwd tmppath))
            = [crosscorr_png (abspath cwd "dataset_diagnosis")]).
Proof.
  intros Hstack. unfold run_interface.
  destruct (_ <? 3); [eexists; repeat split; left; reflexivity|].
  unfold makedirs. rewrite bind_emit.
  destruct (getitem _ "template_file") as [template_file|e];
    [|exists e; repeat split; left; reflexivity].
  rewrite bind_lift_Ok.
  destruct (getitem _ "brain_mask") as [mask_file|e];
    [|exists e; repeat split; left; reflexivity].
  rewrite bind_lift_Ok. unfold write. rewrite bind_emit.
  destruct (Hstack (map nonzero (nb_load mask_file))) as [e He].
  unfold scans_of in He. rewrite He, bind_lift_Raise.
  exists e. repeat split. right. reflexivity.
Qed.


(** *** Input lists of different lengths *)

Lemma zip3_take {A B C : Type} (a : list A) (b : list B) (c : list C) :
  let m := length a `min` (length b `min` length c) in
  zip3 a b c = zip3 (take m a) (take m b) (take m c)
  ∧ length (zip3 a b c) = m
  ∧ (λ t : A * B * C, t.1.1) <$> zip3 a b c = take m a
  ∧ (λ t : A * B * C, t.1.2) <$> zip3 a b c = take m b
  ∧ (λ t : A * B * C, t.2) <$> zip3 a b c = take m c.
Proof.
  revert b c. induction a as [|x a IH]; intros [|y b] [|z c]; simpl;
    try (repeat split; rewrite ?take_nil, ?Nat.min_0_r; reflexivity).
  destruct (IH b c) as (H1 & H2 & H3 & H4 & H5). simpl in *.
  repeat split; f_equal; assumption.
Qed.


(** *** Where a run writes *)

(** Figures and tables go to the names of the output directory, images to
    the temporary file. *)
Definition dataset_event (out_dir tmppath : string) (e : event) : Prop :=
  match e with
  | MkDir _ => True
  | WriteFile path (Nifti _) => path = temp_img tmppath
  | WriteFile path _ =>
      path = crosscorr_png out_dir
      ∨ ∃ family i, path = maps_png out_dir family i
                    ∨ path = stats_csv out_dir family i
  end.

Lemma QC_files_dataset (out_dir tmppath family : string)
    (maps_list : list (mat num)) (priors : mat num) (mask_file : string)
    (std VE : list (vec num)) (tdof : list Z) (template_file : string)
    (idxs : list nat) :
  Forall (dataset_event out_dir tmppath)
    (flat_map (QC_files out_dir family maps_list priors mask_file std VE tdof
                        template_file) idxs).
Proof.
  induction idxs as [|i idxs IH]; simpl; [constructor|].
  apply Forall_app. split; [|exact IH].
  unfold QC_files. destruct (take_axis1 _ _); [|constructor].
  destruct (priors !! i); [|constructor].
  constructor; [simpl; right; exists family, i; auto|].
  constructor; [simpl; right; exists family, i; auto|constructor].
Qed.

Lemma per_prior_plan_dataset (out_dir tmppath mask_file template_file : string)
    (volume_indices : list bool) (seed_priors : list string)
    (st : Stacked num) :
  Forall (dataset_event out_dir tmppath)
    (per_prior_plan out_dir tmppath mask_file template_file volume_indices
                    seed_priors st).
Proof.
  unfold per_prior_plan. destruct (spatial_info st); [|constructor].
  rewrite !Forall_app. split; [apply QC_files_dataset|]. split.
  - destruct (0 <? shape1 _); [apply QC_files_dataset|constructor].
  - destruct (0 <? length seed_priors); [|constructor].
    constructor; [exact I|]. apply Forall_app. split.
    + unfold resample_events. apply Forall_fmap, Forall_forall.
      intros x _. reflexivity.
    + apply QC_files_dataset.
Qed.

Lemma plan_dataset (inputs : Inputs num) (cwd tmppath : string) :
  Forall (dataset_event (abspath cwd "dataset_diagnosis") tmppath)
         (plan inputs cwd tmppath).
Proof.
  unfold plan. destruct (_ <? 3); [constructor|].
  constructor; [exact I|].
  destruct (getitem _ "template_file"); [|constructor].
  destruct (getitem _ "brain_mask"); [|constructor].
  constructor; [left; reflexivity|].
  destruct (stack_maps _ _); [apply per_prior_plan_dataset|constructor].
Qed.

Lemma run_dataset (inputs : Inputs num) (cwd tmppath : string) :
  Forall (dataset_event (abspath cwd "dataset_diagnosis") tmppath)
         (trace (run_interface inputs cwd tmppath)).
Proof.
  destruct (run_follows inputs cwd tmppath) as [[k Hk] _].
  pose proof (plan_dataset inputs cwd tmppath) as H.
  rewrite Hk in H. apply Forall_app in H as [H _]. exact H.
Qed.

(** A run leaves every per-scan figure as it was. *)
Lemma run_keeps_per_scan (inputs : Inputs num) (cwd tmppath : string)
    (d : disk num figure stats) (path : string) :
  PathFacts.per_scan_output path →
  files (replay (trace (run_interface inputs cwd tmppath)) d) !! path
  = files d !! path.
Proof.
  intros Hp. apply replay_untouched. unfold untouched.
  eapply Forall_impl; [apply run_dataset|].
  intros [q|q c] He; [exact I|]. intros ->.
  apply (PathFacts.per_scan_not_dataset (abspath cwd "dataset_diagnosis")
           tmppath path Hp).
  unfold PathFacts.dataset_path.
  destruct c; simpl in He; [| |auto]; destruct He as [->|He]; auto.
Qed.

(** What a trace wrote is on the disk after it. *)
Lemma replay_outputs (tr : list event) (d : disk num figure stats)
    (path : string) :
  path ∈ outputs tr → is_Some (files (replay tr d) !! path).
Proof.
  intros Hin. rewrite replay_lookup.
  assert (H : is_Some (last_write path tr)).
  { induction tr as [|e tr IH]; [inversion Hin|]. simpl.
    destruct (last_write path tr) as [c|] eqn:Hl; [eauto|].
    unfold outputs in Hin. simpl in Hin.
    destruct e as [q|q [f|rows|img]]; simpl in Hin;
      try (apply IH in Hin; destruct Hin; discriminate).
    - apply elem_of_cons in Hin as [->|Hin];
        [rewrite decide_True by reflexivity; eauto|].
      apply IH in Hin. destruct Hin; discriminate.
    - apply elem_of_cons in Hin as [->|Hin];
        [rewrite decide_True by reflexivity; eauto|].
      apply IH in Hin. destruct Hin; discriminate. }
  destruct H as [c ->]. eauto.
Qed.

(** *** Two runs that differ in the temporary directory *)

(** The figure and table events of a trace. *)
Definition durable (tr : list event) : list event :=
  omap (λ e, match e with
             | WriteFile _ (Figure _) | WriteFile _ (Csv _) => Some e
             | _ => None
             end) tr.

Lemma durable_app (tr1 tr2 : list event) :
  durable (tr1 ++ tr2) = durable tr1 ++ durable tr2.
Proof. apply omap_app. Qed.

(** Two computations that end the same way after the same figures and
    tables. *)
Definition alike {A : Type} (m1 m2 : io A) : Prop :=
  outcome m1 = outcome m2 ∧ durable (trace m1) = durable (trace m2).

Lemma alike_refl {A : Type} (m : io A) : alike m m.
Proof. split; reflexivity. Qed.

Lemma alike_bind {A B : Type} (m1 m2 : io A) (k1 k2 : A → io B) :
  alike m1 m2 → (∀ a, alike (k1 a) (k2 a)) →
  alike (m1 ≫= k1) (m2 ≫= k2).
Proof.
  intros [Ho Ht] Hk. unfold alike.
  rewrite !trace_bind, !outcome_bind, <- Ho.
  destruct (outcome m1) as [a|e].
  - destruct (Hk a) as [Hko Hkt]. rewrite !durable_app, Ht, Hkt, Hko.
    split; reflexivity.
  - split; [reflexivity|exact Ht].
Qed.

Lemma resample_alike (t1 t2 mask_file : string) (volume_indices : list bool)
    (seed_priors : list string) :
  alike (resample_seed_priors t1 mask_file volume_indices seed_priors)
        (resample_seed_priors t2 mask_file volume_indices seed_priors).
Proof.
  induction seed_priors as [|p ps IH] using rev_ind; [apply alike_refl|].
  rewrite !resample_seed_priors_snoc.
  apply alike_bind; [exact IH|]. intros prior_maps.
  apply alike_bind; [split; reflexivity|]. intros _. apply alike_refl.
Qed.

Lemma per_prior_alike (out_dir t1 t2 mask_file template_file : string)
    (volume_indices : list bool) (seed_priors : list string)
    (st : Stacked num) :
  alike (per_prior_QC out_dir t1 mask_file template_file volume_indices
                      seed_priors st)
        (per_prior_QC out_dir t2 mask_file template_file volume_indices
                      seed_priors st).
Proof.
  unfold per_prior_QC.
  apply alike_bind; [apply alike_refl|]. intros s.
  apply alike_bind; [apply alike_refl|]. intros _.
  apply alike_bind; [apply alike_refl|]. intros _.
  destruct (0 <? length seed_priors); [|apply alike_refl].
  apply alike_bind; [split; reflexivity|]. intros _.
  apply alike_bind; [apply resample_alike|]. intros prior_maps.
  apply alike_refl.
Qed.

Lemma run_alike (inputs : Inputs num) (cwd t1 t2 : string) :
  alike (run_interface inputs cwd t1) (run_interface inputs cwd t2).
Proof.
  unfold run_interface. destruct (_ <? 3); [apply alike_refl|].
  apply alike_bind; [apply alike_refl|]. intros _.
  apply alike_bind; [apply alike_refl|]. intros template_file.
  apply alike_bind; [apply alike_refl|]. intros mask_file.
  apply alike_bind; [apply alike_refl|]. intros _.
  apply alike_bind; [apply alike_refl|]. intros st.
  apply alike_bind; [apply per_prior_alike|]. intros _. apply alike_refl.
Qed.

(** At a path no image of the trace is written to, the last write is the
    last figure or table written there. *)
Lemma last_write_durable (path : string) (tr : list event) :
  Forall (λ e, match e with
               | WriteFile q (Nifti _) => q ≠ path
               | _ => True
               end) tr →
  last_write path tr = last_write path (durable tr).
Proof.
  induction 1 as [|e tr He _ IH]; [reflexivity|].
  destruct e as [q|q [f|rows|img]]; simpl; rewrite IH; try reflexivity.
  all: destruct (last_write path (durable tr)); try reflexivity.
  rewrite decide_False by exact He. reflexivity.
Qed.

Lemma run_last_write_table (inputs : Inputs num) (cwd tmppath : string)
    (family : string) (i : nat) :
  let path := stats_csv (abspath cwd "dataset_diagnosis") family i in
  last_write path (trace (run_interface inputs cwd tmppath))
  = last_write path (durable (trace (run_interface inputs cwd tmppath))).
Proof.
  intros path. apply last_write_durable.
  eapply Forall_impl; [apply run_dataset|].
  intros [q|q [f|rows|img]] He; try exact I. simpl in He. subst q.
  apply PathFacts.stats_csv_not_temp_img.
Qed.


(** *** Order and names of the outputs *)

Lemma QC_files_sublist (out_dir family : string)
    (maps_list : list (mat num)) (priors : mat num) (mask_file : string)
    (std VE : list (vec num)) (tdof : list Z) (template_file : string)
    (n : nat) :
  outputs (flat_map (QC_files out_dir family maps_list priors mask_file std VE
                              tdof template_file) (seq 0 n))
  `sublist_of` family_paths out_dir family n.
Proof.
  unfold family_paths. induction (seq 0 n) as [|i idxs IH]; simpl;
    [constructor|].
  rewrite outputs_app.
  change (maps_png out_dir family i :: stats_csv out_dir family i :: ?l)
    with ([maps_png out_dir family i; stats_csv out_dir family i] ++ l).
  apply sublist_app; [|exact IH].
  unfold QC_files. destruct (take_axis1 _ _); [|apply sublist_nil_l].
  destruct (priors !! i); [|apply sublist_nil_l]. reflexivity.
Qed.

(** The number of priors the per-prior loops run over: the rows of
    [prior_maps] of the last scan the loop visited. *)
Definition num_priors (inputs : Inputs num) : nat :=
  match last (scans_of inputs) with
  | Some t => length (prior_maps t.1.1)
  | None => 0
  end.

(** Every output name in index order: the cross-correlation figure, then
    for each family the figure and the table of the indices from 0 up. *)
Definition all_names (out_dir : string) (N M : nat) : list string :=
  crosscorr_png out_dir
  :: family_paths out_dir "DR" N
  ++ family_paths out_dir "dual_ICA" N
  ++ family_paths out_dir "seed_FC" M.

Lemma stack_maps_spatial_info (volume_indices : list bool)
    (scans : list scan) (st : Stacked num) :
  stack_maps volume_indices scans = Ok st →
  spatial_info st = (λ t : scan, t.1.1) <$> last scans.
Proof.
  rewrite stack_maps_eq. destruct (load_seeds _ _); [|discriminate].
  cbn [mbind result_bind]. destruct (consistent _); [|discriminate].
  intros [= <-]. simpl. destruct (last scans); reflexivity.
Qed.

Lemma plan_names (inputs : Inputs num) (cwd tmppath : string) :
  outputs (plan inputs cwd tmppath)
  `sublist_of` all_names (abspath cwd "dataset_diagnosis")
                 (num_priors inputs) (length (seed_prior_maps inputs)).
Proof.
  unfold plan, all_names. destruct (_ <? 3); [apply sublist_nil_l|].
  simpl. destruct (getitem _ "template_file"); [|apply sublist_nil_l].
  destruct (getitem _ "brain_mask"); [|apply sublist_nil_l].
  simpl. apply sublist_skip.
  destruct (stack_maps _ _) as [st|] eqn:Hst; [|apply sublist_nil_l].
  apply stack_maps_spatial_info in Hst. unfold per_prior_plan.
  fold (scans_of inputs) in Hst. unfold num_priors.
  rewrite Hst. destruct (last (scans_of inputs)) as [t|];
    [|apply sublist_nil_l].
  simpl. rewrite !outputs_app.
  apply sublist_app; [apply QC_files_sublist|].
  apply sublist_app.
  - destruct (0 <? shape1 _); [apply QC_files_sublist|apply sublist_nil_l].
  - destruct (0 <? length (seed_prior_maps inputs)); [|apply sublist_nil_l].
    simpl. rewrite outputs_app.
    assert (Hr : outputs (resample_events tmppath a0 (seed_prior_maps inputs))
                 = []).
    { unfold resample_events.
      induction (seed_prior_maps inputs) as [|p ps IHp]; [reflexivity|].
      exact IHp. }
    rewrite Hr. apply QC_files_sublist.
Qed.

(** C5: the events of a run are those of its plan, in the plan's order, up
    to the point where an exception stops it (all of them when it ends
    normally); in the plan each family is handled for the prior indices
    0, 1, ... in increasing order, index [i] against row [i] of the prior
    maps, and the names of the figures and tables written are, in this
    order, names [<family><i>_QC_maps.png] and [<family><i>_QC_stats.csv] of
    the output directory. *)
Theorem C5_index_order_and_names (inputs : Inputs num) (cwd tmppath : string) :
  trace (run_interface inputs cwd tmppath) `prefix_of` plan inputs cwd tmppath
  ∧ (∀ out_dir, outcome (run_interface inputs cwd tmppath) = Ok out_dir →
       trace (run_interface inputs cwd tmppath) = plan inputs cwd tmppath)
  ∧ outputs (trace (run_interface inputs cwd tmppath))
    `sublist_of` all_names (abspath cwd "dataset_diagnosis")
                   (num_priors inputs) (length (seed_prior_maps inputs)).
Proof.
  destruct (run_follows inputs cwd tmppath) as [Hp He].
  split; [exact Hp|]. split; [exact He|].
  etrans; [|apply plan_names].
  destruct Hp as [k ->]. rewrite outputs_app.
  apply sublist_inserts_r. reflexivity.
Qed.

(** *** Runs that fail partway *)

(** C6, as the code has it: a run that raises leaves on the disk every
    figure and table it wrote before the exception (nothing is rolled back,
    also not for the family during which it failed), and it leaves every
    per-scan figure of [ScanDiagnosis] as it was. *)
Theorem C6_failed_run_keeps_outputs (inputs : Inputs num)
    (cwd tmppath : string) (d : disk num figure stats) (e : exn) :
  outcome (run_interface inputs cwd tmppath) = Raise e →
  (∀ path, path ∈ outputs (trace (run_interface inputs cwd tmppath)) →
           is_Some (files (run_on inputs cwd tmppath d).2 !! path))
  ∧ (∀ path, PathFacts.per_scan_output path →
             files (run_on inputs cwd tmppath d).2 !! path = files d !! path).
Proof.
  intros _. unfold run_on. simpl. split.
  - intros path. apply replay_outputs.
  - intros path. apply run_keeps_per_scan.
Qed.

(** *** Runs that end normally *)

Lemma take_axis1_ready (maps_list : list (mat num)) (i : nat) :
  Forall (λ m, i < length m) maps_list →
  ∃ FC_maps, take_axis1 maps_list i = Ok FC_maps.
Proof.
  intros H. unfold take_axis1.
  assert (Hs : is_Some (mapM (λ m : mat num, m !! i) maps_list)).
  { apply mapM_is_Some. eapply Forall_impl; [exact H|].
    intros m Hm. apply lookup_lt_is_Some. exact Hm. }
  destruct Hs as [rows ->]. eauto.
Qed.

Lemma QC_loop_Ok (out_dir family : string) (maps_list : list (mat num))
    (priors : mat num) (mask_file : string)
    (std VE : list (vec num)) (tdof : list Z) (template_file : string)
    (n : nat) :
  (∀ i, i < n → QC_ready maps_list priors i) →
  outcome (QC_loop out_dir family maps_list priors n mask_file std VE tdof
                   template_file) = Ok tt.
Proof.
  intros Hready.
  destruct (QC_loop_run out_dir family maps_list priors mask_file std VE tdof
              template_file n) as (k & Hk & _ & _ & [[Ho _]|(Hlt & Hnr & _)]).
  - exact Ho.
  - destruct Hnr. apply Hready. exact Hlt.
Qed.

Lemma select_length (mask : list bool) (data data' : list num) :
  length data = length mask → length data' = length mask →
  length (select mask data) = length (select mask data').
Proof.
  revert data data'. induction mask as [|b mask IH];
    intros [|x data] [|x' data'] H H'; simpl in *; try lia.
  destruct b; simpl; [f_equal|]; apply IH; lia.
Qed.

Lemma homogeneous_intro {A : Type} (rows : list (list A)) :
  (∀ r1 r2, r1 ∈ rows → r2 ∈ rows → length r1 = length r2) →
  homogeneous rows = true.
Proof.
  destruct rows as [|r rest]; [reflexivity|]. intros H. simpl.
  apply forallb_forall. intros x Hx%list_elem_of_In. apply Nat.eqb_eq.
  apply H; [right; exact Hx|left].
Qed.

(** Every seed map of every scan has the voxel count of the mask. *)
Definition seed_maps_on_grid (mask_file : string) (scans : list scan) : Prop :=
  Forall (λ t : scan,
            Forall (λ seed_map,
                      length (nb_load seed_map) = length (nb_load mask_file))
                   (seed_map_files t.1.2))
         scans.

Definition masked_seeds (volume_indices : list bool) (t : scan)
  : list (vec num) :=
  (λ seed_map, select volume_indices (nb_load seed_map))
    <$> seed_map_files t.1.2.

Lemma load_seeds_Ok (mask_file : string) (scans : list scan) :
  seed_maps_on_grid mask_file scans →
  load_seeds (map nonzero (nb_load mask_file)) scans
  = Ok (masked_seeds (map nonzero (nb_load mask_file)) <$> scans).
Proof.
  unfold load_seeds, masked_seeds.
  induction 1 as [|t scans Ht _ IH]; [reflexivity|].
  cbn [traverse]. rewrite IH.
  assert (Hfiles : traverse (λ seed_map,
                      bool_index (nb_load seed_map)
                                 (map nonzero (nb_load mask_file)))
                    (seed_map_files t.1.2)
                  = Ok ((λ seed_map,
                           select (map nonzero (nb_load mask_file))
                                  (nb_load seed_map))
                        <$> seed_map_files t.1.2)).
  { induction Ht as [|p ps Hp _ IHp]; [reflexivity|].
    cbn [traverse]. rewrite IHp. unfold bool_index.
    rewrite length_map, Hp, Nat.eqb_refl. reflexivity. }
  rewrite Hfiles. reflexivity.
Qed.

Lemma resample_Ok (tmppath mask_file : string) (seed_priors : list string) :
  Forall (λ p, length (sitk_resample p mask_file) = length (nb_load mask_file))
         seed_priors →
  outcome (resample_seed_priors tmppath mask_file
             (map nonzero (nb_load mask_file)) seed_priors)
  = Ok (resampled_priors mask_file (map nonzero (nb_load mask_file))
                         seed_priors).
Proof.
  induction seed_priors as [|p ps IH] using rev_ind; [reflexivity|].
  intros [Hps Hp]%Forall_app. apply Forall_cons in Hp as [Hp _].
  rewrite resample_seed_priors_snoc, outcome_bind, (IH Hps).
  unfold write. rewrite bind_emit. cbn [outcome].
  unfold bool_index. rewrite length_map, Hp, Nat.eqb_refl.
  rewrite bind_lift_Ok. unfold resampled_priors. rewrite fmap_app.
  reflexivity.
Qed.

(** Some scan has dual ICA components. *)
Definition any_dual_ICA (scans : list scan) : bool :=
  existsb (λ t : scan, 0 <? length (dual_ICA_maps t.1.1)) scans.

Lemma any_dual_ICA_shape1 (scans : list scan) :
  homogeneous ((λ t : scan, dual_ICA_maps t.1.1) <$> scans) = true →
  any_dual_ICA scans
  = (0 <? shape1 ((λ t : scan, dual_ICA_maps t.1.1) <$> scans)).
Proof.
  destruct scans as [|t0 scans]; [reflexivity|]. intros Hh.
  unfold any_dual_ICA. cbn [existsb fmap list_fmap shape1].
  destruct (0 <? length (dual_ICA_maps t0.1.1)) eqn:H0; [reflexivity|].
  simpl. apply not_true_is_false. intros (t & Ht & Hpos)%existsb_exists.
  apply list_elem_of_In in Ht.
  rewrite (homogeneous_lengths _ (dual_ICA_maps t.1.1)
             (dual_ICA_maps t0.1.1) Hh) in Hpos.
  - congruence.
  - right. apply (list_elem_of_fmap_2 (λ t : scan, dual_ICA_maps t.1.1)).
    exact Ht.
  - left.
Qed.

(** Every scan brings the maps the per-prior loops index: a dual regression
    map per prior; no dual ICA map, or one per prior; and, when seed priors
    are given, as many seed maps as any other scan and one per seed prior at
    least, the resampled priors being on the grid of the mask. *)
Definition enough_maps (inputs : Inputs num) (mask_file : string) : Prop :=
  Forall (λ t : scan, num_priors inputs ≤ length (DR_BOLD t.1.1))
         (scans_of inputs)
  ∧ Forall (λ t : scan, length (dual_ICA_maps t.1.1) = 0
                        ∨ num_priors inputs ≤ length (dual_ICA_maps t.1.1))
           (scans_of inputs)
  ∧ (seed_prior_maps inputs = []
     ∨ Forall (λ p, length (sitk_resample p mask_file)
                    = length (nb_load mask_file)) (seed_prior_maps inputs)
       ∧ ∃ n, length (seed_prior_maps inputs) ≤ n
              ∧ Forall (λ t : scan, length (seed_map_files t.1.2) = n)
                       (scans_of inputs)).

Section Success.
Variables (inputs : Inputs num) (cwd tmppath : string).
Variables (template_file mask_file : string).

Hypothesis Hzip : scans_of inputs ≠ [].
Hypothesis Hgrid : seed_maps_on_grid mask_file (scans_of inputs).
Hypothesis Hcons : consistent (scans_of inputs) = true.
Hypothesis Hmaps : enough_maps inputs mask_file.

Local Abbreviation vi := (map nonzero (nb_load mask_file)).
Local Abbreviation st :=
  (stacked_of no_scan (scans_of inputs) (masked_seeds vi <$> scans_of inputs)).
Local Abbreviation out_dir := (abspath cwd "dataset_diagnosis").

Lemma stack_maps_Ok : stack_maps vi (scans_of inputs) = Ok st.
Proof.
  rewrite stack_maps_eq, (load_seeds_Ok _ _ Hgrid). cbn [mbind result_bind].
  rewrite Hcons. reflexivity.
Qed.

Lemma last_scan : ∃ t : scan, last (scans_of inputs) = Some t
                              ∧ spatial_info st = Some t.1.1
                              ∧ num_priors inputs = length (prior_maps t.1.1).
Proof.
  unfold num_priors. simpl.
  destruct (last (scans_of inputs)) as [t|] eqn:Hl.
  - exists t. repeat split.
  - apply last_None in Hl. contradiction.
Qed.

Lemma DR_ready (t : scan) (i : nat) :
  num_priors inputs = length (prior_maps t.1.1) → i < num_priors inputs →
  QC_ready (DR_maps_list st) (prior_maps t.1.1) i.
Proof.
  intros HN Hi. destruct Hmaps as (HDR & _ & _). split.
  - apply take_axis1_ready. simpl. apply Forall_fmap.
    eapply Forall_impl; [exact HDR|]. simpl. intros; lia.
  - apply lookup_lt_is_Some. lia.
Qed.

Lemma dual_ready (t : scan) (i : nat) :
  num_priors inputs = length (prior_maps t.1.1) → i < num_priors inputs →
  (0 <? shape1 (dual_ICA_maps_list st)) = true →
  QC_ready (dual_ICA_maps_list st) (prior_maps t.1.1) i.
Proof.
  intros HN Hi Hpos. destruct Hmaps as (_ & Hdual & _). split.
  - apply take_axis1_ready. simpl. apply Forall_fmap.
    apply Forall_forall. intros t' Ht'. simpl.
    unfold consistent in Hcons. rewrite !andb_true_iff in Hcons.
    destruct Hcons as [_ [Hh _]].
    cbn [dual_ICA_maps_list stacked_of no_scan app] in Hpos.
    rewrite <- (any_dual_ICA_shape1 _ Hh) in Hpos.
    apply existsb_exists in Hpos as (t0 & Ht0%list_elem_of_In & Hpos).
    apply Nat.ltb_lt in Hpos.
    assert (Hlen : length (dual_ICA_maps t'.1.1)
                   = length (dual_ICA_maps t0.1.1)).
    { apply (homogeneous_lengths _ _ _ Hh);
        apply (list_elem_of_fmap_2 (λ t : scan, dual_ICA_maps t.1.1));
        assumption. }
    rewrite Forall_forall in Hdual. destruct (Hdual t' Ht'); lia.
  - apply lookup_lt_is_Some. lia.
Qed.

Lemma length_vi : length vi = length (nb_load mask_file).
Proof. apply length_map. Qed.

Lemma resampled_homogeneous :
  Forall (λ p, length (sitk_resample p mask_file) = length (nb_load mask_file))
         (seed_prior_maps inputs) →
  array2 (resampled_priors mask_file vi (seed_prior_maps inputs))
  = Ok (resampled_priors mask_file vi (seed_prior_maps inputs)).
Proof.
  intros Hres. unfold array2. rewrite homogeneous_intro; [reflexivity|].
  unfold resampled_priors.
  intros r1 r2 (p1 & -> & H1)%list_elem_of_fmap (p2 & -> & H2)%list_elem_of_fmap.
  rewrite Forall_forall in Hres.
  apply select_length; rewrite length_vi; apply Hres; assumption.
Qed.

Lemma seed_stack_homogeneous (n : nat) :
  Forall (λ t : scan, length (seed_map_files t.1.2) = n) (scans_of inputs) →
  array3 (seed_maps_list st) = Ok (seed_maps_list st).
Proof.
  intros Hn. unfold array3. cbn [seed_maps_list stacked_of no_scan app].
  rewrite !homogeneous_intro; [reflexivity| |].
  - intros r1 r2 (l1 & H1 & Hl1)%list_elem_of_In%in_concat
                 (l2 & H2 & Hl2)%list_elem_of_In%in_concat.
    apply list_elem_of_In, list_elem_of_fmap in H1 as (t1 & -> & Ht1).
    apply list_elem_of_In, list_elem_of_fmap in H2 as (t2 & -> & Ht2).
    apply list_elem_of_In, list_elem_of_fmap in Hl1 as (p1 & -> & Hp1).
    apply list_elem_of_In, list_elem_of_fmap in Hl2 as (p2 & -> & Hp2).
    unfold seed_maps_on_grid in Hgrid. rewrite Forall_forall in Hgrid.
    pose proof (Hgrid t1 Ht1) as G1. pose proof (Hgrid t2 Ht2) as G2.
    rewrite Forall_forall in G1, G2.
    apply select_length; rewrite length_vi; auto.
  - intros l1 l2 (t1 & -> & Ht1)%list_elem_of_fmap
                 (t2 & -> & Ht2)%list_elem_of_fmap.
    unfold masked_seeds. rewrite !length_fmap.
    rewrite Forall_forall in Hn. rewrite (Hn t1 Ht1), (Hn t2 Ht2).
    reflexivity.
Qed.

Lemma seed_ready (n i : nat) :
  length (seed_prior_maps inputs) ≤ n →
  Forall (λ t : scan, length (seed_map_files t.1.2) = n) (scans_of inputs) →
  i < length (seed_prior_maps inputs) →
  QC_ready (seed_maps_list st)
           (resampled_priors mask_file vi (seed_prior_maps inputs)) i.
Proof.
  intros HM Hn Hi. split.
  - apply take_axis1_ready. cbn [seed_maps_list stacked_of no_scan app].
    apply Forall_fmap. eapply Forall_impl; [exact Hn|].
    intros t Ht. unfold compose, masked_seeds. rewrite length_fmap.
    simpl in Ht. lia.
  - apply lookup_lt_is_Some. unfold resampled_priors. rewrite length_fmap.
    exact Hi.
Qed.

Lemma per_prior_Ok :
  outcome (per_prior_QC out_dir tmppath mask_file template_file vi
             (seed_prior_maps inputs) st) = Ok tt.
Proof.
  destruct last_scan as (t & _ & Hsp & HN).
  unfold per_prior_QC. rewrite Hsp, bind_lift_Ok.
  rewrite outcome_bind, QC_loop_Ok;
    [|rewrite <- HN; intros i Hi; apply DR_ready; assumption].
  rewrite outcome_bind.
  assert (Hd : outcome
      (if 0 <? shape1 (dual_ICA_maps_list st)
       then QC_loop out_dir "dual_ICA" (dual_ICA_maps_list st)
              (prior_maps t.1.1) (length (prior_maps t.1.1)) mask_file
              (std_maps st) (VE_maps st) (tdof_list st) template_file
       else mret tt) = Ok tt).
  { destruct (0 <? shape1 (dual_ICA_maps_list st)) eqn:Hpos; [|reflexivity].
    apply QC_loop_Ok. rewrite <- HN. intros i Hi.
    apply dual_ready; assumption. }
  rewrite Hd.
  destruct Hmaps as (_ & _ & [Hnil|(Hres & n & HM & Hn)]).
  - rewrite Hnil. reflexivity.
  - destruct (0 <? length (seed_prior_maps inputs)); [|reflexivity].
    unfold makedirs. rewrite bind_emit. cbn [outcome].
    rewrite outcome_bind, (resample_Ok _ _ _ Hres).
    rewrite (resampled_homogeneous Hres), bind_lift_Ok.
    rewrite (seed_stack_homogeneous n Hn), bind_lift_Ok.
    apply QC_loop_Ok. intros i Hi. apply (seed_ready n); try assumption.
    unfold resampled_priors in Hi. rewrite length_fmap in Hi. exact Hi.
Qed.

Hypothesis Hsize : 3 ≤ length (flatten_list (spatial_info_list inputs)).
Hypothesis Htpl : mask_file_dict inputs !! "template_file" = Some template_file.
Hypothesis Hmsk : mask_file_dict inputs !! "brain_mask" = Some mask_file.

Lemma run_Ok : outcome (run_interface inputs cwd tmppath) = Ok out_dir.
Proof.
  unfold run_interface.
  destruct (_ <? 3) eqn:Hcheck; [apply Nat.ltb_lt in Hcheck; lia|].
  unfold makedirs, getitem. rewrite bind_emit, Htpl, bind_lift_Ok, Hmsk.
  rewrite bind_lift_Ok. unfold write. rewrite bind_emit.
  fold (scans_of inputs). rewrite stack_maps_Ok, bind_lift_Ok.
  cbn [outcome]. rewrite outcome_bind, per_prior_Ok. reflexivity.
Qed.

Lemma resample_events_no_output (seed_priors : list string) :
  outputs (resample_events tmppath mask_file seed_priors) = []
  ∧ tables (resample_events tmppath mask_file seed_priors) = [].
Proof.
  unfold resample_events.
  induction seed_priors as [|p ps [IH1 IH2]]; [split; reflexivity|].
  split; [exact IH1|exact IH2].
Qed.

(** The figures and tables of the plan of a well-shaped call. *)
Lemma plan_outputs :
  outputs (plan inputs cwd tmppath)
  = crosscorr_png out_dir
    :: family_paths out_dir "DR" (num_priors inputs)
    ++ (if any_dual_ICA (scans_of inputs)
        then family_paths out_dir "dual_ICA" (num_priors inputs) else [])
    ++ (if 0 <? length (seed_prior_maps inputs)
        then family_paths out_dir "seed_FC" (length (seed_prior_maps inputs))
        else [])
  ∧ Forall (λ t, length t.2 = 1) (tables (plan inputs cwd tmppath)).
Proof.
  destruct last_scan as (t & _ & Hsp & HN).
  assert (Hh : homogeneous ((λ t : scan, dual_ICA_maps t.1.1)
                              <$> scans_of inputs) = true).
  { pose proof Hcons as Hc. unfold consistent in Hc.
    rewrite !andb_true_iff in Hc. destruct Hc as [_ [Hh _]]. exact Hh. }
  unfold plan.
  destruct (_ <? 3) eqn:Hcheck; [apply Nat.ltb_lt in Hcheck; lia|].
  unfold getitem. rewrite Htpl, Hmsk. fold (scans_of inputs).
  rewrite stack_maps_Ok. unfold per_prior_plan. rewrite Hsp, <- HN.
  rewrite (any_dual_ICA_shape1 _ Hh).
  change (dual_ICA_maps_list st)
    with ((λ t : scan, dual_ICA_maps t.1.1) <$> scans_of inputs).
  destruct (outputs_QC_files out_dir "DR" (DR_maps_list st) (prior_maps t.1.1)
              mask_file (std_maps st) (VE_maps st) (tdof_list st)
              template_file (num_priors inputs)) as [HoDR HtDR].
  { intros i Hi. apply DR_ready; assumption. }
  assert (Hdual :
    let E := if 0 <? shape1 ((λ t : scan, dual_ICA_maps t.1.1)
                               <$> scans_of inputs)
             then flat_map (QC_files out_dir "dual_ICA"
                              ((λ t : scan, dual_ICA_maps t.1.1)
                                 <$> scans_of inputs)
                              (prior_maps t.1.1) mask_file (std_maps st)
                              (VE_maps st) (tdof_list st) template_file)
                           (seq 0 (num_priors inputs))
             else [] in
    outputs E = (if 0 <? shape1 ((λ t : scan, dual_ICA_maps t.1.1)
                                   <$> scans_of inputs)
                 then family_paths out_dir "dual_ICA" (num_priors inputs)
                 else [])
    ∧ Forall (λ t, length t.2 = 1) (tables E)).
  { destruct (0 <? shape1 _) eqn:Hpos; [|split; [reflexivity|constructor]].
    apply outputs_QC_files. intros i Hi. apply dual_ready; assumption. }
  destruct Hdual as [HoD HtD].
  assert (Hseed :
    let E := if 0 <? length (seed_prior_maps inputs)
             then MkDir tmppath
                  :: resample_events tmppath mask_file (seed_prior_maps inputs)
                  ++ flat_map (QC_files out_dir "seed_FC" (seed_maps_list st)
                                 (resampled_priors mask_file vi
                                    (seed_prior_maps inputs))
                                 mask_file (std_maps st) (VE_maps st)
                                 (tdof_list st) template_file)
                              (seq 0 (length (seed_prior_maps inputs)))
             else [] in
    outputs E = (if 0 <? length (seed_prior_maps inputs)
                 then family_paths out_dir "seed_FC"
                        (length (seed_prior_maps inputs))
                 else [])
    ∧ Forall (λ t, length t.2 = 1) (tables E)).
  { destruct (0 <? length (seed_prior_maps inputs)) eqn:HM;
      [|split; [reflexivity|constructor]].
    destruct Hmaps as (_ & _ & [Hnil|(Hres & n & HMn & Hn)]).
    { rewrite Hnil in HM. discriminate. }
    destruct (resample_events_no_output (seed_prior_maps inputs)) as [Ho Ht].
    destruct (outputs_QC_files out_dir "seed_FC" (seed_maps_list st)
                (resampled_priors mask_file vi (seed_prior_maps inputs))
                mask_file (std_maps st) (VE_maps st) (tdof_list st)
                template_file (length (seed_prior_maps inputs)))
      as [HoS HtS].
    { intros i Hi. apply (seed_ready n); assumption. }
    cbv zeta. change (outputs (MkDir tmppath :: ?l)) with (outputs l).
    change (tables (MkDir tmppath :: ?l)) with (tables l).
    rewrite outputs_app, tables_app, Ho, Ht. split; assumption. }
  destruct Hseed as [HoS HtS]. cbv zeta in HoD, HtD, HoS, HtS.
  change (outputs (MkDir out_dir :: WriteFile ?p (Figure ?f) :: ?l))
    with (p :: outputs l).
  change (tables (MkDir out_dir :: WriteFile ?p (Figure ?f) :: ?l))
    with (tables l).
  rewrite !outputs_app, !tables_app, HoDR, HoD, HoS. split; [reflexivity|].
  rewrite !Forall_app. repeat split; assumption.
Qed.

End Success.


End Loops.

End DatasetFacts.

(** ** A three-scan cohort *)

Module Cohort.

Import Np Dataset IoFacts DatasetFacts.

(** Collaborators over integer voxels: images of three voxels, a mask that
    keeps the first and the last one, and statistics that list the prior
    row followed by the maps of the component across the scans. *)
#[local] Instance three_voxels : Collaborators Z string (list Z) := {|
  nonzero := λ x, negb (x =? 0)%Z;
  nb_load := λ path,
    if String.eqb path "mask.nii.gz" then [1; 0; 1]%Z else [7; 8; 9]%Z;
  otsu_scaling := λ _, [];
  spatial_crosscorrelations := λ _ _ _, "crosscorrelations";
  analysis_QC := λ FC_maps prior_map _ _ _ _ _,
    (prior_map ++ concat FC_maps, "QC");
  sitk_resample := λ _ _, [4; 5; 6]%Z;
|}.

(** A scan whose maps all hold the value [v] on two voxels, with [n_DR] dual
    regression maps, [n_dual] dual ICA maps and two priors. *)
Definition scan_of (v : Z) (n_DR n_dual : nat) : SpatialInfo Z :=
  {| temporal_std := [v; v];
     VE_spatial := [v; v];
     DR_BOLD := replicate n_DR [v; v];
     dual_ICA_maps := replicate n_dual [v; v];
     prior_maps := [[1; 1]; [2; 2]]%Z |}.

Definition analysis_of (seed_maps : list string) : AnalysisDict :=
  {| seed_map_files := seed_maps |}.

Definition files_of (name : string) : FileDict :=
  {| bold_file := name; CR_data_dict := {| tDOF := 10 |};
     VE_file := name +:+ "_VE"; STD_file := name +:+ "_STD" |}.

Definition bundle : gmap string string :=
  <[ "template_file" := "template.nii.gz" ]>
  (<[ "brain_mask" := "mask.nii.gz" ]> ∅).

(** [n_scans] scans, the first given on its own and the others in a nested
    list, as a join over subjects and runs hands them over. *)
Definition cohort (n_scans n_DR n_dual : nat) (seed_maps seed_priors : list string)
  : Inputs Z :=
  let scans := (λ k, scan_of (Z.of_nat (S k)) n_DR n_dual) <$> seq 0 n_scans in
  {| spatial_info_list :=
       match scans with
       | [] => []
       | s :: rest => [Item s; Nest (Item <$> rest)]
       end;
     analysis_dict_list := replicate n_scans (Item (analysis_of seed_maps));
     file_dict_list := replicate n_scans (Item (files_of "sub_bold.nii.gz"));
     mask_file_dict := bundle;
     seed_prior_maps := seed_priors |}.

Definition empty_disk : disk Z string (list Z) := Disk ∅ ∅.

(** Three scans, two priors, one dual ICA map per scan. *)
Definition one_dual_ICA_map : Inputs Z := cohort 3 2 1 [] [].


(** Three scans with two priors but one dual regression map each. *)
Definition one_DR_map : Inputs Z := cohort 3 1 0 [] [].

(** C6 fails as stated: the run raises [IndexError] in the dual regression
    family at index 1, and the figure and the table of index 0 of that
    family are in the output directory afterwards. *)
Lemma C6_counterexample :
  outcome (run_interface one_DR_map "/work" "/tmp/tmpq")
  = Raise (IndexError "index is out of bounds for axis 1")
  ∧ files (run_on one_DR_map "/work" "/tmp/tmpq" empty_disk).2
      !! "/work/dataset_diagnosis/DR0_QC_stats.csv"
    = Some (Csv [[1; 1; 1; 1; 2; 2; 3; 3]%Z])
  ∧ files (run_on one_DR_map "/work" "/tmp/tmpq" empty_disk).2
      !! "/work/dataset_diagnosis/DR0_QC_maps.png"
    = Some (Figure "QC").
Proof. vm_compute. repeat split. Qed.

(** Two scans only. *)
Definition two_scans : Inputs Z := cohort 2 2 0 [] [].

Lemma C1_insufficient_sample_witness :
  outcome (run_interface two_scans "/work" "/tmp/tmpq")
  = Raise (ValueError sample_size_msg)
  ∧ trace (run_interface two_scans "/work" "/tmp/tmpq") = []
  ∧ run_on two_scans "/work" "/tmp/tmpq" empty_disk
    = (Raise (ValueError sample_size_msg), empty_disk).
Proof.
  apply (C1_insufficient_sample two_scans "/work" "/tmp/tmpq" empty_disk).
  vm_compute. lia.
Defined.

(** Three scans, two priors, two maps of each family, one seed. *)
Definition full_cohort : Inputs Z :=
  cohort 3 2 2 ["seed_map.nii.gz"] ["seed_prior.nii.gz"].


(** Three scans, the last one with three voxels where the others have
    two. *)
Definition odd_scan : Inputs Z :=
  {| spatial_info_list :=
       [Item (scan_of 1 2 0); Item (scan_of 2 2 0);
        Item {| temporal_std := [3; 3; 3]; VE_spatial := [3; 3; 3];
                DR_BOLD := replicate 2 [3; 3; 3]; dual_ICA_maps := [];
                prior_maps := [[1; 1; 1]; [2; 2; 2]] |}]%Z;
     analysis_dict_list := replicate 3 (Item (analysis_of []));
     file_dict_list := replicate 3 (Item (files_of "sub_bold.nii.gz"));
     mask_file_dict := bundle;
     seed_prior_maps := [] |}.


(** Four spatial records against three analysis and three file records. *)
Definition four_against_three : Inputs Z :=
  {| spatial_info_list := (λ v, Item (scan_of v 2 0)) <$> [1; 2; 3; 4]%Z;
     analysis_dict_list := replicate 3 (Item (analysis_of []));
     file_dict_list := replicate 3 (Item (files_of "sub_bold.nii.gz"));
     mask_file_dict := bundle;
     seed_prior_maps := [] |}.


Lemma C6_failed_run_keeps_outputs_witness :
  (∀ path, path ∈ outputs (trace (run_interface one_DR_map "/work" "/tmp/tmpq")) →
           is_Some (files (run_on one_DR_map "/work" "/tmp/tmpq" empty_disk).2
                      !! path))
  ∧ (∀ path, PathFacts.per_scan_output path →
             files (run_on one_DR_map "/work" "/tmp/tmpq" empty_disk).2 !! path
             = files empty_disk !! path).
Proof.
  apply (C6_failed_run_keeps_outputs one_DR_map "/work" "/tmp/tmpq" empty_disk
           (IndexError "index is out of bounds for axis 1")).
  vm_compute. reflexivity.
Defined.

(** The four-against-three call ends normally: the fourth spatial record is
    left out of the stacks without any error. *)
Example four_against_three_runs :
  outcome (run_interface four_against_three "/work" "/tmp/tmpq")
  = Ok "/work/dataset_diagnosis"
  ∧ tables (trace (run_interface four_against_three "/work" "/tmp/tmpq"))
    = [("/work/dataset_diagnosis/DR0_QC_stats.csv", [[1; 1; 1; 1; 2; 2; 3; 3]]);
       ("/work/dataset_diagnosis/DR1_QC_stats.csv", [[2; 2; 1; 1; 2; 2; 3; 3]])]%Z.
Proof. vm_compute. split; reflexivity. Qed.

End Cohort.

(** ** The per-scan diagnosis *)

Module ScanFacts.

Import Scan IoFacts.

Section Amplitudes.
Context {num figure stats item : Type}.
Variable int : item → result Z.
Variable scan_diagnosis : string → TemporalInfo → figure * figure.

Local Abbreviation run :=
  (run_interface (num := num) (stats := stats) int scan_diagnosis).

Lemma run_temporal_info (inputs : Inputs) (cwd : string)
    (bold confound : list Z) (s c : amplitude) :
  traverse int (prior_bold_idx inputs) = Ok bold →
  traverse int (prior_confound_idx inputs) = Ok confound →
  average_amplitude (component_amplitudes inputs) bold = Ok s →
  average_amplitude (component_amplitudes inputs) confound = Ok c →
  ∃ out, outcome (run inputs cwd) = Ok out
         ∧ signal_amplitude (temporal_info out) = s
         ∧ confound_amplitude (temporal_info out) = c.
Proof.
  intros Hb Hc Hs Hcf. unfold run_interface.
  rewrite Hb, bind_lift_Ok, Hc, bind_lift_Ok.
  unfold process_data. rewrite Hs. cbn [mbind result_bind]. rewrite Hcf.
  cbn [mbind result_bind]. rewrite bind_lift_Ok.
  destruct (scan_diagnosis _ _) as [fig fig2].
  unfold write. rewrite !bind_emit. cbn [outcome].
  eexists. split; [reflexivity|]. split; reflexivity.
Qed.

(** C7, on the amplitude averaging as the specification describes it: with
    an empty confound index list the confound amplitude is [NaN] and the
    run ends normally whenever the signal group can be averaged; the same
    with the two groups exchanged; and averaging over no index never
    raises. *)
Theorem C7_empty_index_list (inputs : Inputs) (cwd : string)
    (idx : list Z) (a : amplitude) :
  (prior_confound_idx inputs = [] →
   traverse int (prior_bold_idx inputs) = Ok idx →
   average_amplitude (component_amplitudes inputs) idx = Ok a →
   ∃ out, outcome (run inputs cwd) = Ok out
          ∧ signal_amplitude (temporal_info out) = a
          ∧ confound_amplitude (temporal_info out) = NaN)
  ∧ (prior_bold_idx inputs = [] →
     traverse int (prior_confound_idx inputs) = Ok idx →
     average_amplitude (component_amplitudes inputs) idx = Ok a →
     ∃ out, outcome (run inputs cwd) = Ok out
            ∧ signal_amplitude (temporal_info out) = NaN
            ∧ confound_amplitude (temporal_info out) = a)
  ∧ average_amplitude (component_amplitudes inputs) [] = Ok NaN.
Proof.
  split; [|split; [|reflexivity]].
  - intros Hc Hb Ha. apply (run_temporal_info inputs cwd idx []);
      try assumption; [rewrite Hc|]; reflexivity.
  - intros Hb Hc Ha. apply (run_temporal_info inputs cwd [] idx);
      try assumption; [rewrite Hb|]; reflexivity.
Qed.

End Amplitudes.

(** A scan with two signal components and no confound component. *)
Definition no_confound : Inputs (item := Z) :=
  {| bold_file := "/data/sub-01_bold.nii.gz";
     component_amplitudes := [3; 5; 2]%Q;
     prior_bold_idx := [0; 1]%Z;
     prior_confound_idx := [] |}.

Definition blank_figures (bold : string) (t : TemporalInfo) : string * string :=
  ("temporal", "spatial").

Lemma C7_empty_index_list_witness :
  ∃ out, outcome (run_interface (num := Z) (stats := unit) Ok blank_figures
                    no_confound "/work") = Ok out
         ∧ signal_amplitude (temporal_info out) = Amplitude ((3 + (5 + 0)) / 2)
         ∧ confound_amplitude (temporal_info out) = NaN.
Proof.
  apply (proj1 (C7_empty_index_list (num := Z) (stats := unit) Ok blank_figures
                  no_confound "/work" [0; 1]%Z
                  (Amplitude ((3 + (5 + 0)) / 2)))).
  - reflexivity.
  - reflexivity.
  - reflexivity.
Defined.

(** The figures of that scan are named after the stem of the BOLD file. *)
Example no_confound_figures :
  outputs (trace (run_interface (num := Z) (stats := unit) Ok blank_figures
                    no_confound "/work"))
  = ["/work/sub-01_bold_temporal_diagnosis.png";
     "/work/sub-01_bold_spatial_diagnosis.png"].
Proof. reflexivity. Qed.

End ScanFacts.

(** * [run_main.py]: the checks of [preprocess] on its options *)

Module Cli.

Import RunMain.

(** [c in s] for a character. *)
Fixpoint has_char (c : ascii) (s : string) : bool :=
  match s with
  | EmptyString => false
  | String c' s' => Ascii.eqb c' c || has_char c s'
  end.

(** [s.split(sep)] for a separator of one character: the pieces between the
    separators, the empty ones included. *)
Fixpoint split_char (sep : ascii) (s : string) : list string :=
  match s with
  | EmptyString => [""]
  | String c s' =>
      if Ascii.eqb c sep then "" :: split_char sep s'
      else match split_char sep s' with
           | piece :: pieces => String c piece :: pieces
           | [] => [String c ""]
           end
  end.

Definition resampling_msg (resampling : string) : string :=
  "Resampling " +:+ resampling +:+
  " must follow the format 'dim1xdim2xdim3', e.g. '0.1x0.1x0.1', (in mm) following the RAS axis convention.".

Section Resampling.
(** Python's [float] on a string: the number, or nothing where it raises. *)
Variable float : string → option Q.

(** The [try] block of [check_resampling_syntax]: nothing when a statement
    of the block raises (the two bare [raise] and [float]). *)
Definition parse_spacing (resampling : string) : option (Q * Q * Q) :=
  if negb (has_char "x" resampling) then None
  else
    let shape := split_char "x" resampling in
    if negb (length shape =? 3) then None
    else
      s0 ← shape !! 0; s1 ← shape !! 1; s2 ← shape !! 2;
      d0 ← float s0; d1 ← float s1; d2 ← float s2;
      Some (d0, d1, d2).

(** [check_resampling_syntax]: the [except] clause turns whatever the block
    raised into the [ValueError] on the format. *)
Definition check_resampling_syntax (resampling : string) : result unit :=
  if String.eqb resampling "inputs_defined" then Ok tt
  else match parse_spacing resampling with
       | Some _ => Ok tt
       | None => Raise (ValueError (resampling_msg resampling))
       end.

End Resampling.

(** The default template files [install_DSURQE] looks for, in the order of
    its tests. *)
Definition template_files (rabies_path : string) : list string :=
  [rabies_path +:+ "/DSURQE_40micron_average.nii.gz";
   rabies_path +:+ "/DSURQE_40micron_mask.nii.gz";
   rabies_path +:+ "/DSURQE_40micron_eroded_WM_mask.nii.gz";
   rabies_path +:+ "/DSURQE_40micron_eroded_CSF_mask.nii.gz";
   rabies_path +:+ "/DSURQE_40micron_labels.nii.gz";
   rabies_path +:+ "/vascular_mask.nii.gz";
   rabies_path +:+ "/melodic_IC.nii.gz";
   rabies_path +:+ "/EPI_template.nii.gz";
   rabies_path +:+ "/EPI_brain_mask.nii.gz";
   rabies_path +:+ "/EPI_WM_mask.nii.gz";
   rabies_path +:+ "/EPI_CSF_mask.nii.gz";
   rabies_path +:+ "/EPI_vascular_mask.nii.gz";
   rabies_path +:+ "/EPI_labels.nii.gz";
   rabies_path +:+ "/melodic_IC_resampled.nii.gz"].

(** [install_DSURQE]: the commands it runs, given [os.path.isfile].  The
    chain of [if]/[elif] sets [install] at the first file that is missing. *)
Definition install_DSURQE (isfile : string → bool) (rabies_path : string)
  : list string :=
  let install :=
    if negb (isfile (rabies_path +:+ "/DSURQE_40micron_average.nii.gz")) then true
    else if negb (isfile (rabies_path +:+ "/DSURQE_40micron_mask.nii.gz")) then true
    else if negb (isfile (rabies_path +:+ "/DSURQE_40micron_eroded_WM_mask.nii.gz")) then true
    else if negb (isfile (rabies_path +:+ "/DSURQE_40micron_eroded_CSF_mask.nii.gz")) then true
    else if negb (isfile (rabies_path +:+ "/DSURQE_40micron_labels.nii.gz")) then true
    else if negb (isfile (rabies_path +:+ "/vascular_mask.nii.gz")) then true
    else if negb (isfile (rabies_path +:+ "/melodic_IC.nii.gz")) then true
    else if negb (isfile (rabies_path +:+ "/EPI_template.nii.gz")) then true
    else if negb (isfile (rabies_path +:+ "/EPI_brain_mask.nii.gz")) then true
    else if negb (isfile (rabies_path +:+ "/EPI_WM_mask.nii.gz")) then true
    else if negb (isfile (rabies_path +:+ "/EPI_CSF_mask.nii.gz")) then true
    else if negb (isfile (rabies_path +:+ "/EPI_vascular_mask.nii.gz")) then true
    else if negb (isfile (rabies_path +:+ "/EPI_labels.nii.gz")) then true
    else if negb (isfile (rabies_path +:+ "/melodic_IC_resampled.nii.gz")) then true
    else false in
  if install then ["install_DSURQE.sh " +:+ rabies_path] else [].

(** The pixel types of [--data_type], and the choices the parser allows
    (line 128). *)
Inductive PixelID : Type := sitkInt16 | sitkInt32 | sitkFloat32 | sitkFloat64.

Definition data_type_choices : list string :=
  ["int16"; "int32"; "float32"; "float64"].

(** Lines 585-594 of [preprocess]. *)
Definition convert_data_type (data_type : string) : result PixelID :=
  if String.eqb data_type "int16" then Ok sitkInt16
  else if String.eqb data_type "int32" then Ok sitkInt32
  else if String.eqb data_type "float32" then Ok sitkFloat32
  else if String.eqb data_type "float64" then Ok sitkFloat64
  else Raise (ValueError "Invalid --data_type provided.").

(** The template options of [preprocess]. *)
Record Templates : Type := {
  anat_template : string;
  masks : MaskOptions;
}.

(** Lines 599-628: with [--bold_only] an option still at its DSURQE default
    is moved to the EPI file; [prior_maps] is the option of the analysis
    step, when there is one. *)
Definition swap_default (rabies_path default epi option : string) : string :=
  if String.eqb option (rabies_path +:+ default) then rabies_path +:+ epi
  else option.

Definition bold_only_templates (rabies_path : string) (t : Templates)
    (prior_maps : option string) : Templates * option string :=
  ({| anat_template :=
        swap_default rabies_path "/DSURQE_40micron_average.nii.gz"
          "/EPI_template.nii.gz" (anat_template t);
      masks :=
        {| brain_mask :=
             swap_default rabies_path "/DSURQE_40micron_mask.nii.gz"
               "/EPI_brain_mask.nii.gz" (brain_mask (masks t));
           WM_mask :=
             swap_default rabies_path "/DSURQE_40micron_eroded_WM_mask.nii.gz"
               "/EPI_WM_mask.nii.gz" (WM_mask (masks t));
           CSF_mask :=
             swap_default rabies_path "/DSURQE_40micron_eroded_CSF_mask.nii.gz"
               "/EPI_CSF_mask.nii.gz" (CSF_mask (masks t));
           vascular_mask :=
             swap_default rabies_path "/vascular_mask.nii.gz"
               "/EPI_vascular_mask.nii.gz" (vascular_mask (masks t));
           labels :=
             swap_default rabies_path "/DSURQE_40micron_labels.nii.gz"
               "/EPI_labels.nii.gz" (labels (masks t)) |} |},
   swap_default rabies_path "/melodic_IC.nii.gz" "/melodic_IC_resampled.nii.gz"
     <$> prior_maps).

(** The options of the [preprocess] command that the checks read. *)
Record Options : Type := {
  bids_dir : string;
  output_dir : string;
  data_type : string;
  bold_only : bool;
  templates : Templates;
  brain_extraction : bool;
  commonspace_masking : bool;
  coreg_masking : bool;
  nativespace_resampling : string;
  commonspace_resampling : string;
  anatomical_resampling : string;
}.

(** What the checks leave in the options for the workflow. *)
Record Checked : Type := {
  pixel_type : PixelID;
  checked_templates : Templates;
  checked_prior_maps : option string;
}.

Section Preprocess.
Variable ReadImage : string → Image.
Variable isfile isdir : string → bool.
Variable abspath : string → string.
Variable convert_to_RAS : string → string → string.
Variable float : string → option Q.
Variable rabies_path : string.

Definition abspath_templates (t : Templates) : Templates :=
  {| anat_template := abspath (anat_template t);
     masks := {| brain_mask := abspath (brain_mask (masks t));
                 WM_mask := abspath (WM_mask (masks t));
                 CSF_mask := abspath (CSF_mask (masks t));
                 vascular_mask := abspath (vascular_mask (masks t));
                 labels := abspath (labels (masks t)) |} |}.

(** [preprocess] from its first line to the checks on the resampling options
    (lines 575-686), without the log lines: everything it does before the
    boilerplate is written and the workflow is built. *)
Definition preprocess_checks (opts : Options) (prior_maps : option string)
  : result Checked :=
  let data_dir_path := abspath (bids_dir opts) in
  let output_folder := abspath (output_dir opts) in
  if negb (isdir data_dir_path) then
    Raise (ValueError "The provided BIDS data path doesn't exists.")
  else
    pixel ← convert_data_type (data_type opts);
    let '(t, prior_maps) :=
      if bold_only opts then
        bold_only_templates rabies_path (templates opts) prior_maps
      else (templates opts, prior_maps) in
    let t := abspath_templates t in
    if brain_extraction opts
       && negb (commonspace_masking opts || coreg_masking opts) then
      Raise (ValueError "To use --brain_extraction, you must select either --commonspace_masking or --coreg_masking.")
    else if negb (isfile (anat_template t)) then
      Raise (ValueError ("--anat_template file " +:+ anat_template t +:+
                         " doesn't exists."))
    else
      let template :=
        convert_to_RAS (anat_template t) (output_folder +:+ "/template_files") in
      m ← preprocess_masks ReadImage isfile convert_to_RAS output_folder
            template (masks t);
      _ ← check_resampling_syntax float (nativespace_resampling opts);
      _ ← check_resampling_syntax float (commonspace_resampling opts);
      _ ← check_resampling_syntax float (anatomical_resampling opts);
      Ok {| pixel_type := pixel;
            checked_templates := {| anat_template := template; masks := m |};
            checked_prior_maps := prior_maps |}.

End Preprocess.

End Cli.

Module CliFacts.

Import RunMain Cli.

(** *** Splitting at a character *)

(** [sep.join(pieces)] *)
Fixpoint join_char (sep : ascii) (pieces : list string) : string :=
  match pieces with
  | [] => ""
  | [piece] => piece
  | piece :: pieces' => piece +:+ String sep (join_char sep pieces')
  end.

Lemma split_char_nonempty (sep : ascii) (s : string) :
  split_char sep s ≠ [].
Proof.
  destruct s as [|c s]; simpl; [discriminate|].
  destruct (Ascii.eqb c sep); [discriminate|].
  destruct (split_char sep s); discriminate.
Qed.

Lemma split_char_pieces (sep : ascii) (s : string) :
  Forall (λ piece, has_char sep piece = false) (split_char sep s).
Proof.
  induction s as [|c s IH]; simpl; [repeat constructor|].
  destruct (Ascii.eqb c sep) eqn:Hc; [constructor; [reflexivity|exact IH]|].
  destruct (split_char sep s) as [|piece pieces]; [repeat constructor; simpl; rewrite Hc; reflexivity|].
  apply Forall_cons in IH as [Hp Hps].
  constructor; [|exact Hps]. simpl. rewrite Hc, Hp. reflexivity.
Qed.

Lemma join_split_char (sep : ascii) (s : string) :
  join_char sep (split_char sep s) = s.
Proof.
  induction s as [|c s IH]; simpl; [reflexivity|].
  destruct (Ascii.eqb c sep) eqn:Hc.
  - apply Ascii.eqb_eq in Hc as ->.
    destruct (split_char sep s) as [|piece pieces] eqn:Hs;
      [destruct (split_char_nonempty _ _ Hs)|].
    change (join_char sep ("" :: piece :: pieces))
      with (String sep (join_char sep (piece :: pieces))).
    rewrite IH. reflexivity.
  - destruct (split_char sep s) as [|piece pieces] eqn:Hs;
      [destruct (split_char_nonempty _ _ Hs)|].
    destruct pieces as [|piece' pieces].
    + simpl in IH. subst s. reflexivity.
    + change (piece +:+ String sep (join_char sep (piece' :: pieces)) = s)
        in IH.
      rewrite <- IH. reflexivity.
Qed.

Lemma split_char_piece (sep : ascii) (piece : string) :
  has_char sep piece = false → split_char sep piece = [piece].
Proof.
  induction piece as [|c piece IH]; simpl; [reflexivity|].
  intros [Hc Hp]%orb_false_iff. rewrite Hc, (IH Hp). reflexivity.
Qed.

Lemma split_char_app (sep : ascii) (piece rest : string) :
  has_char sep piece = false →
  split_char sep (piece +:+ String sep rest) = piece :: split_char sep rest.
Proof.
  induction piece as [|c piece IH]; simpl.
  - intros _. rewrite Ascii.eqb_refl. reflexivity.
  - intros [Hc Hp]%orb_false_iff. rewrite Hc, (IH Hp). reflexivity.
Qed.

Lemma has_char_app (c : ascii) (a b : string) :
  has_char c (a +:+ b) = has_char c a || has_char c b.
Proof.
  induction a as [|c' a IH]; simpl; [reflexivity|].
  rewrite IH, orb_assoc. reflexivity.
Qed.

(** Three pieces are what the split of [a x b x c] gives, and nothing else
    splits into three. *)
Lemma split_char_three (sep : ascii) (s a b c : string) :
  split_char sep s = [a; b; c] ↔
  s = a +:+ String sep (b +:+ String sep c)
  ∧ has_char sep a = false ∧ has_char sep b = false ∧ has_char sep c = false.
Proof.
  split.
  - intros Hs. pose proof (join_split_char sep s) as Hj.
    pose proof (split_char_pieces sep s) as Hp. rewrite Hs in Hj, Hp.
    apply Forall_cons in Hp as [Ha Hp]. apply Forall_cons in Hp as [Hb Hp].
    apply Forall_cons in Hp as [Hc _]. simpl in Hj. auto.
  - intros (-> & Ha & Hb & Hc).
    rewrite (split_char_app _ _ _ Ha), (split_char_app _ _ _ Hb),
      (split_char_piece _ _ Hc). reflexivity.
Qed.

Section Resampling.
Variable float : string → option Q.

Lemma check_resampling_syntax_cases (resampling : string) :
  check_resampling_syntax float resampling = Ok tt
  ∨ check_resampling_syntax float resampling
    = Raise (ValueError (resampling_msg resampling)).
Proof.
  unfold check_resampling_syntax.
  destruct (String.eqb _ _); [auto|]. destruct (parse_spacing _ _); auto.
Qed.

(** X1: [check_resampling_syntax] accepts ['inputs_defined'] and the strings
    made of three pieces without an [x], joined by two [x], each of which
    [float] reads; for every other string it raises the [ValueError] on the
    format, whatever went wrong inside. *)
Theorem check_resampling_syntax_accepts (resampling : string) :
  (check_resampling_syntax float resampling = Ok tt ↔
   resampling = "inputs_defined"
   ∨ ∃ a b c, resampling = a +:+ "x" +:+ b +:+ "x" +:+ c
              ∧ has_char "x" a = false ∧ has_char "x" b = false
              ∧ has_char "x" c = false
              ∧ is_Some (float a) ∧ is_Some (float b) ∧ is_Some (float c))
  ∧ (check_resampling_syntax float resampling = Ok tt
     ∨ check_resampling_syntax float resampling
       = Raise (ValueError (resampling_msg resampling))).
Proof.
  unfold check_resampling_syntax.
  destruct (String.eqb_spec resampling "inputs_defined") as [->|Hne];
    [split; [split; auto|auto]|].
  split; [|destruct (parse_spacing _ _); auto].
  unfold parse_spacing. split.
  - destruct (has_char "x" resampling); [|discriminate]. simpl.
    destruct (split_char "x" resampling) as [|a [|b [|c [|d l]]]] eqn:Hs;
      try discriminate.
    simpl. apply split_char_three in Hs as (-> & Ha & Hb & Hc).
    destruct (float a) as [d0|] eqn:H0; [|discriminate].
    destruct (float b) as [d1|] eqn:H1; [|discriminate].
    destruct (float c) as [d2|] eqn:H2; [|discriminate].
    intros _. right. exists a, b, c. rewrite H0, H1, H2. repeat split; eauto.
  - intros [->|(a & b & c & -> & Ha & Hb & Hc & [d0 H0] & [d1 H1] & [d2 H2])];
      [contradiction|].
    rewrite has_char_app. simpl. rewrite orb_true_r. simpl.
    assert (Hs : split_char "x" (a +:+ "x" +:+ b +:+ "x" +:+ c) = [a; b; c]).
    { apply split_char_three. auto. }
    rewrite Hs. simpl. rewrite H0, H1, H2. reflexivity.
Qed.

End Resampling.

(** *** The default template files *)

Lemma install_flag (isfile : string → bool) (rabies_path : string) :
  install_DSURQE isfile rabies_path =
  if existsb (λ f, negb (isfile f)) (template_files rabies_path)
  then ["install_DSURQE.sh " +:+ rabies_path] else [].
Proof.
  unfold install_DSURQE, template_files. cbn [existsb].
  repeat (match goal with
          | |- context [if negb (isfile ?f) then true else _] =>
              destruct (isfile f); cbn [negb orb]; [|reflexivity]
          end).
  reflexivity.
Qed.

(** X2: [install_DSURQE] runs the installer, once, exactly when one of the
    fourteen default files is missing, and runs nothing when all are
    there. *)
Theorem install_DSURQE_when_missing (isfile : string → bool)
    (rabies_path : string) :
  (install_DSURQE isfile rabies_path = ["install_DSURQE.sh " +:+ rabies_path]
   ↔ ∃ f, f ∈ template_files rabies_path ∧ isfile f = false)
  ∧ (install_DSURQE isfile rabies_path = []
     ↔ ∀ f, f ∈ template_files rabies_path → isfile f = true).
Proof.
  rewrite install_flag.
  destruct (existsb _ _) eqn:He.
  - apply existsb_exists in He as (f & Hf%list_elem_of_In & Hm).
    apply negb_true_iff in Hm. split; split; try discriminate; eauto.
    intros Hall. rewrite (Hall f Hf) in Hm. discriminate.
  - split; split; try discriminate; try reflexivity.
    + intros (f & Hf%list_elem_of_In & Hm).
      assert (existsb (λ f, negb (isfile f)) (template_files rabies_path)
              = true); [|congruence].
      apply existsb_exists. exists f. rewrite Hm. auto.
    + intros _ f Hf%list_elem_of_In. destruct (isfile f) eqn:Hm; [reflexivity|].
      assert (existsb (λ f, negb (isfile f)) (template_files rabies_path)
              = true); [|congruence].
      apply existsb_exists. exists f. rewrite Hm. auto.
Qed.

(** *** The pixel type *)

Lemma convert_data_type_spec (data_type : string) :
  ((∃ pixel, convert_data_type data_type = Ok pixel)
   ↔ data_type ∈ data_type_choices)
  ∧ (data_type ∉ data_type_choices →
     convert_data_type data_type
     = Raise (ValueError "Invalid --data_type provided.")).
Proof.
  unfold convert_data_type, data_type_choices.
  destruct (String.eqb_spec data_type "int16") as [->|H1];
    [split; [split; [intros _; set_solver|eauto]|set_solver]|].
  destruct (String.eqb_spec data_type "int32") as [->|H2];
    [split; [split; [intros _; set_solver|eauto]|set_solver]|].
  destruct (String.eqb_spec data_type "float32") as [->|H3];
    [split; [split; [intros _; set_solver|eauto]|set_solver]|].
  destruct (String.eqb_spec data_type "float64") as [->|H4];
    [split; [split; [intros _; set_solver|eauto]|set_solver]|].
  split; [|reflexivity]. split; [intros [pixel Hp]; discriminate|].
  intros Hin. repeat (apply elem_of_cons in Hin as [->|Hin]; [contradiction|]).
  inversion Hin.
Qed.

(** X3: the pixel types [preprocess] converts are exactly the choices of the
    parser for [--data_type]; any other string raises the [ValueError] on
    the data type. *)
Theorem convert_data_type_choices (data_type : string) :
  ((∃ pixel, convert_data_type data_type = Ok pixel)
   ↔ data_type ∈ data_type_choices)
  ∧ (data_type ∉ data_type_choices →
     convert_data_type data_type
     = Raise (ValueError "Invalid --data_type provided.")).
Proof.
  destruct (convert_data_type_spec data_type) as [Hiff Hraise].
  split; [exact Hiff|exact Hraise].
Qed.

(** *** The templates of a BOLD-only dataset *)

Lemma swap_default_spec (rabies_path default epi option : string) :
  default ≠ epi →
  swap_default rabies_path default epi option ≠ rabies_path +:+ default
  ∧ (option ≠ rabies_path +:+ default →
     swap_default rabies_path default epi option = option).
Proof.
  intros Hne. unfold swap_default.
  destruct (String.eqb_spec option (rabies_path +:+ default)) as [->|Ho].
  - split; [|contradiction]. intros H%String.app_inj. congruence.
  - split; [exact Ho|reflexivity].
Qed.

(** X4: with [--bold_only], no template option is left at its DSURQE
    default (nor the prior maps at the default of the analysis step), and an
    option the user set to another path keeps it. *)
Theorem bold_only_templates_spec (rabies_path : string) (t : Templates)
    (prior_maps : option string) :
  let t' := (bold_only_templates rabies_path t prior_maps).1 in
  let prior_maps' := (bold_only_templates rabies_path t prior_maps).2 in
  let changed (default option option' : string) :=
    option' ≠ rabies_path +:+ default
    ∧ (option ≠ rabies_path +:+ default → option' = option) in
  changed "/DSURQE_40micron_average.nii.gz" (anat_template t) (anat_template t')
  ∧ changed "/DSURQE_40micron_mask.nii.gz"
      (brain_mask (masks t)) (brain_mask (masks t'))
  ∧ changed "/DSURQE_40micron_eroded_WM_mask.nii.gz"
      (WM_mask (masks t)) (WM_mask (masks t'))
  ∧ changed "/DSURQE_40micron_eroded_CSF_mask.nii.gz"
      (CSF_mask (masks t)) (CSF_mask (masks t'))
  ∧ changed "/vascular_mask.nii.gz"
      (vascular_mask (masks t)) (vascular_mask (masks t'))
  ∧ changed "/DSURQE_40micron_labels.nii.gz"
      (labels (masks t)) (labels (masks t'))
  ∧ match prior_maps, prior_maps' with
    | Some p, Some p' => changed "/melodic_IC.nii.gz" p p'
    | None, None => True
    | _, _ => False
    end.
Proof.
  cbv zeta. unfold bold_only_templates. cbn [fst snd anat_template masks
    brain_mask WM_mask CSF_mask vascular_mask labels].
  repeat split; try (apply swap_default_spec; discriminate).
  destruct prior_maps as [p|]; [|exact I]. simpl.
  apply swap_default_spec. discriminate.
Qed.

(** *** The checks of [preprocess] *)

Lemma bind_Raise_inv {A B : Type} (r : result A) (k : A → result B) (e : exn) :
  r ≫= k = Raise e → r = Raise e ∨ ∃ a, r = Ok a ∧ k a = Raise e.
Proof. destruct r as [a|e']; [eauto|]. intros [= ->]. auto. Qed.

Section Preprocess.
Variable ReadImage : string → Image.
Variable isfile isdir : string → bool.
Variable abspath : string → string.
Variable convert_to_RAS : string → string → string.
Variable float : string → option Q.
Variable rabies_path : string.

(** One mask option passes its block. *)
Definition mask_accepted (binary : bool) (output_folder template mask : string)
  : Prop :=
  isfile mask = true
  ∧ (binary = true → non_binary (GetArray (ReadImage mask)) = false)
  ∧ check_template_overlap ReadImage template
      (convert_to_RAS mask (output_folder +:+ "/template_files")) = Ok tt.

Lemma check_mask_option_Ok (flag : string) (binary : bool)
    (output_folder template mask mask' : string) :
  check_mask_option ReadImage isfile convert_to_RAS flag binary output_folder
    template mask = Ok mask'
  ↔ mask_accepted binary output_folder template mask
    ∧ mask' = convert_to_RAS mask (output_folder +:+ "/template_files").
Proof.
  unfold check_mask_option, mask_accepted, check_binary_masks.
  destruct (isfile mask); simpl; [|split; [discriminate|intros [[? _] _]; discriminate]].
  destruct binary; simpl.
  - destruct (non_binary _); simpl.
    + split; [discriminate|]. intros [(_ & H & _) _]. discriminate (H eq_refl).
    + destruct (check_template_overlap _ _ _) as [[]|e]; simpl.
      * split; [intros [= <-]; auto|intros [_ ->]; reflexivity].
      * split; [discriminate|intros [(_ & _ & ?) _]; discriminate].
  - destruct (check_template_overlap _ _ _) as [[]|e]; simpl.
    + split; [intros [= <-]; repeat split; discriminate|intros [_ ->]; reflexivity].
    + split; [discriminate|intros [(_ & _ & ?) _]; discriminate].
Qed.

Lemma check_mask_option_Raise (flag : string) (binary : bool)
    (output_folder template mask : string) (e : exn) :
  check_mask_option ReadImage isfile convert_to_RAS flag binary output_folder
    template mask = Raise e → ∃ msg, e = ValueError msg.
Proof.
  unfold check_mask_option, check_binary_masks, check_template_overlap.
  destruct (isfile mask); simpl; [|intros [= <-]; eauto].
  destruct binary; simpl.
  - destruct (non_binary _); simpl; [intros [= <-]; eauto|].
    destruct (_ && _); simpl; [intros [= <-]; eauto|discriminate].
  - destruct (_ && _); simpl; [intros [= <-]; eauto|discriminate].
Qed.

(** The templates the checks run on: the EPI files for the defaults of a
    BOLD-only dataset, made absolute. *)
Definition effective_templates (opts : Options) : Templates :=
  abspath_templates abspath
    (if bold_only opts
     then (bold_only_templates rabies_path (templates opts) None).1
     else templates opts).

(** What the options must satisfy for the workflow to be built. *)
Definition acceptable (opts : Options) : Prop :=
  let t := effective_templates opts in
  let output_folder := abspath (output_dir opts) in
  let template :=
    convert_to_RAS (anat_template t) (output_folder +:+ "/template_files") in
  isdir (abspath (bids_dir opts)) = true
  ∧ data_type opts ∈ data_type_choices
  ∧ (brain_extraction opts = true →
     commonspace_masking opts = true ∨ coreg_masking opts = true)
  ∧ isfile (anat_template t) = true
  ∧ mask_accepted true output_folder template (brain_mask (masks t))
  ∧ mask_accepted true output_folder template (WM_mask (masks t))
  ∧ mask_accepted true output_folder template (CSF_mask (masks t))
  ∧ mask_accepted true output_folder template (vascular_mask (masks t))
  ∧ mask_accepted false output_folder template (labels (masks t))
  ∧ check_resampling_syntax float (nativespace_resampling opts) = Ok tt
  ∧ check_resampling_syntax float (commonspace_resampling opts) = Ok tt
  ∧ check_resampling_syntax float (anatomical_resampling opts) = Ok tt.

Local Abbreviation checks :=
  (preprocess_checks ReadImage isfile isdir abspath convert_to_RAS float
                     rabies_path).

Lemma bold_only_templates_fst (t : Templates) (prior_maps : option string) :
  (bold_only_templates rabies_path t prior_maps).1
  = (bold_only_templates rabies_path t None).1.
Proof. reflexivity. Qed.

Lemma preprocess_masks_Ok (output_folder template : string)
    (m m' : MaskOptions) :
  preprocess_masks ReadImage isfile convert_to_RAS output_folder template m
  = Ok m'
  ↔ (mask_accepted true output_folder template (brain_mask m)
     ∧ mask_accepted true output_folder template (WM_mask m)
     ∧ mask_accepted true output_folder template (CSF_mask m)
     ∧ mask_accepted true output_folder template (vascular_mask m)
     ∧ mask_accepted false output_folder template (labels m))
    ∧ m' = {| brain_mask := convert_to_RAS (brain_mask m)
                              (output_folder +:+ "/template_files");
              WM_mask := convert_to_RAS (WM_mask m)
                           (output_folder +:+ "/template_files");
              CSF_mask := convert_to_RAS (CSF_mask m)
                            (output_folder +:+ "/template_files");
              vascular_mask := convert_to_RAS (vascular_mask m)
                                 (output_folder +:+ "/template_files");
              labels := convert_to_RAS (labels m)
                          (output_folder +:+ "/template_files") |}.
Proof.
  unfold preprocess_masks. split.
  - intros H.
    apply bind_Ok_inv in H as (bm & [H1 ->]%check_mask_option_Ok & H).
    apply bind_Ok_inv in H as (wm & [H2 ->]%check_mask_option_Ok & H).
    apply bind_Ok_inv in H as (csf & [H3 ->]%check_mask_option_Ok & H).
    apply bind_Ok_inv in H as (vasc & [H4 ->]%check_mask_option_Ok & H).
    apply bind_Ok_inv in H as (lab & [H5 ->]%check_mask_option_Ok & H).
    injection H as <-. auto 10.
  - intros [(H1 & H2 & H3 & H4 & H5) ->].
    rewrite (proj2 (check_mask_option_Ok "brain_mask" true _ _ _ _) (conj H1 eq_refl)).
    cbn [mbind result_bind].
    rewrite (proj2 (check_mask_option_Ok "WM_mask" true _ _ _ _) (conj H2 eq_refl)).
    cbn [mbind result_bind].
    rewrite (proj2 (check_mask_option_Ok "CSF_mask" true _ _ _ _) (conj H3 eq_refl)).
    cbn [mbind result_bind].
    rewrite (proj2 (check_mask_option_Ok "vascular_mask" true _ _ _ _) (conj H4 eq_refl)).
    cbn [mbind result_bind].
    rewrite (proj2 (check_mask_option_Ok "labels" false _ _ _ _) (conj H5 eq_refl)).
    reflexivity.
Qed.

(** X5: the checks of [preprocess] pass exactly for the acceptable options:
    the BIDS directory exists, the data type is one of the parser's choices,
    brain extraction comes with one of the two masking options, the template
    and the five mask files exist, the four masks (not the labels) are
    binary, each converted file passes the overlap check against the
    converted template, and the three resampling options are well formed.
    What is returned then holds the files converted to RAS. *)
Theorem preprocess_checks_accept (opts : Options)
    (prior_maps : option string) :
  (∃ checked, checks opts prior_maps = Ok checked) ↔ acceptable opts.
Proof.
  unfold preprocess_checks, acceptable, effective_templates.
  destruct (isdir (abspath (bids_dir opts)));
    [|split; [intros [? ?]; discriminate|intros [? _]; discriminate]].
  cbn [negb].
  destruct (convert_data_type_spec (data_type opts)) as [Hdt Hndt].
  destruct (convert_data_type (data_type opts)) as [pixel|e] eqn:Hpix.
  2:{ split; [intros [? ?]; discriminate|].
      intros (_ & Hin & _). apply Hdt in Hin as [? ?]. discriminate. }
  cbn [mbind result_bind].
  assert (Hin : data_type opts ∈ data_type_choices) by (apply Hdt; eauto).
  set (t0 := if bold_only opts
             then (bold_only_templates rabies_path (templates opts) None).1
             else templates opts).
  assert (Ht : ∃ pm, (if bold_only opts
                      then bold_only_templates rabies_path (templates opts)
                             prior_maps
                      else (templates opts, prior_maps)) = (t0, pm)).
  { unfold t0. destruct (bold_only opts); eexists; reflexivity. }
  destruct Ht as [pm ->].
  destruct (brain_extraction opts); cbn [andb].
  - destruct (commonspace_masking opts), (coreg_masking opts); cbn [orb negb].
    4:{ split; [intros [? ?]; discriminate|].
        intros (_ & _ & H & _). destruct (H eq_refl); discriminate. }
    all: destruct (isfile (anat_template (abspath_templates abspath t0)));
      cbn [negb];
      [|split; [intros [? ?]; discriminate|intros (_ & _ & _ & ? & _); discriminate]].
    all: split.
    all: try (intros [checked H];
      apply bind_Ok_inv in H as (m & (Hm & _)%preprocess_masks_Ok & H);
      apply bind_Ok_inv in H as ([] & Hr1 & H);
      apply bind_Ok_inv in H as ([] & Hr2 & H);
      apply bind_Ok_inv in H as ([] & Hr3 & H);
      destruct Hm as (H1 & H2 & H3 & H4 & H5);
      repeat match goal with |- _ ∧ _ => split end;
      first [assumption | reflexivity | intros _; auto]; fail).
    all: intros (_ & _ & _ & _ & H1 & H2 & H3 & H4 & H5 & Hr1 & Hr2 & Hr3);
      rewrite (proj2 (preprocess_masks_Ok _ _ _ _)
                 (conj (conj H1 (conj H2 (conj H3 (conj H4 H5)))) eq_refl));
      cbn [mbind result_bind]; rewrite Hr1, Hr2, Hr3; eexists; reflexivity.
  - destruct (isfile (anat_template (abspath_templates abspath t0)));
      cbn [negb];
      [|split; [intros [? ?]; discriminate|intros (_ & _ & _ & ? & _); discriminate]].
    split.
    + intros [checked H].
      apply bind_Ok_inv in H as (m & (Hm & _)%preprocess_masks_Ok & H).
      apply bind_Ok_inv in H as ([] & Hr1 & H).
      apply bind_Ok_inv in H as ([] & Hr2 & H).
      apply bind_Ok_inv in H as ([] & Hr3 & H).
      destruct Hm as (H1 & H2 & H3 & H4 & H5).
      repeat match goal with |- _ ∧ _ => split end;
        first [assumption | reflexivity | discriminate].
    + intros (_ & _ & _ & _ & H1 & H2 & H3 & H4 & H5 & Hr1 & Hr2 & Hr3).
      rewrite (proj2 (preprocess_masks_Ok _ _ _ _)
                 (conj (conj H1 (conj H2 (conj H3 (conj H4 H5)))) eq_refl)).
      cbn [mbind result_bind]. rewrite Hr1, Hr2, Hr3. eexists. reflexivity.
Qed.

Lemma preprocess_masks_Raise (output_folder template : string)
    (m : MaskOptions) (e : exn) :
  preprocess_masks ReadImage isfile convert_to_RAS output_folder template m
  = Raise e → ∃ msg, e = ValueError msg.
Proof.
  unfold preprocess_masks. intros H.
  repeat (apply bind_Raise_inv in H as [H|(? & _ & H)];
          [apply check_mask_option_Raise in H; exact H|]).
  discriminate.
Qed.

(** X6: whatever check of [preprocess] fails, the exception is a
    [ValueError]. *)
Theorem preprocess_checks_ValueError (opts : Options)
    (prior_maps : option string) (e : exn) :
  checks opts prior_maps = Raise e → ∃ msg, e = ValueError msg.
Proof.
  unfold preprocess_checks.
  destruct (isdir _); cbn [negb]; [|intros [= <-]; eauto].
  intros H. apply bind_Raise_inv in H as [H|(pixel & _ & H)].
  { unfold convert_data_type in H.
    repeat (destruct (String.eqb _ _); [discriminate|]).
    injection H as <-. eauto. }
  destruct (if bold_only opts then _ else _) as [t pm].
  destruct (_ && _); [injection H as <-; eauto|].
  destruct (isfile _); cbn [negb] in H; [|injection H as <-; eauto].
  apply bind_Raise_inv in H as [H|(m & _ & H)];
    [apply preprocess_masks_Raise in H; exact H|].
  repeat (apply bind_Raise_inv in H as [H|([] & _ & H)];
          [match type of H with
           | check_resampling_syntax _ ?r = _ =>
               destruct (check_resampling_syntax_cases float r)
                 as [Hok|Hr];
               [congruence|rewrite Hr in H; injection H as <-; eauto]
           end|]).
  discriminate.
Qed.

End Preprocess.

(** A BOLD-only dataset with the parser's defaults, on a disk that holds
    every file and directory asked for, all images with the header and the
    binary array of the template. *)
Definition default_options (rabies_path : string) : Options :=
  {| bids_dir := "bids"; output_dir := "out"; data_type := "float32";
     bold_only := true;
     templates :=
       {| anat_template := rabies_path +:+ "/DSURQE_40micron_average.nii.gz";
          masks :=
            {| brain_mask := rabies_path +:+ "/DSURQE_40micron_mask.nii.gz";
               WM_mask := rabies_path +:+ "/DSURQE_40micron_eroded_WM_mask.nii.gz";
               CSF_mask := rabies_path +:+ "/DSURQE_40micron_eroded_CSF_mask.nii.gz";
               vascular_mask := rabies_path +:+ "/vascular_mask.nii.gz";
               labels := rabies_path +:+ "/DSURQE_40micron_labels.nii.gz" |} |};
     brain_extraction := false; commonspace_masking := false;
     coreg_masking := false;
     nativespace_resampling := "inputs_defined";
     commonspace_resampling := "0.2x0.2x0.2";
     anatomical_resampling := "inputs_defined" |}.

Definition one_image (path : string) : Image :=
  {| GetOrigin := [0; 0; 0]%Q; GetDirection := [1; 0; 0; 0; 1; 0; 0; 0; 1]%Q;
     GetArray := [0; 1; 1; 0]%Q |}.

Definition reads_decimal (s : string) : option Q :=
  if String.eqb s "0.2" then Some (2 # 10)%Q else None.

(** The defaults pass, on the EPI files. *)
Example default_options_pass :
  preprocess_checks one_image (λ _, true) (λ _, true) (λ p, "/abs/" +:+ p)
    (λ p _, p) reads_decimal "/share/rabies" (default_options "/share/rabies")
    (Some "/share/rabies/melodic_IC.nii.gz")
  = Ok {| pixel_type := sitkFloat32;
          checked_templates :=
            {| anat_template := "/abs//share/rabies/EPI_template.nii.gz";
               masks :=
                 {| brain_mask := "/abs//share/rabies/EPI_brain_mask.nii.gz";
                    WM_mask := "/abs//share/rabies/EPI_WM_mask.nii.gz";
                    CSF_mask := "/abs//share/rabies/EPI_CSF_mask.nii.gz";
                    vascular_mask := "/abs//share/rabies/EPI_vascular_mask.nii.gz";
                    labels := "/abs//share/rabies/EPI_labels.nii.gz" |} |};
          checked_prior_maps := Some "/share/rabies/melodic_IC_resampled.nii.gz" |}.
Proof. vm_compute. reflexivity. Qed.

(** The same options with a resampling of two pieces. *)
Definition two_pieces : Options :=
  {| bids_dir := "bids"; output_dir := "out"; data_type := "float32";
     bold_only := true; templates := templates (default_options "/share/rabies");
     brain_extraction := false; commonspace_masking := false;
     coreg_masking := false;
     nativespace_resampling := "0.2x0.2";
     commonspace_resampling := "inputs_defined";
     anatomical_resampling := "inputs_defined" |}.

Lemma preprocess_checks_ValueError_witness :
  ∃ msg, ValueError (resampling_msg "0.2x0.2") = ValueError msg.
Proof.
  apply (preprocess_checks_ValueError one_image (λ _, true) (λ _, true)
           (λ p, "/abs/" +:+ p) (λ p _, p) reads_decimal "/share/rabies"
           two_pieces None).
  vm_compute. reflexivity.
Defined.

End CliFacts.

(** * More on the mask bundle *)

Module MasksMore.

Import Masks.

Section Bundle.
Variable environ : gmap string string.
Variable cwd : string.
Variable resample_mask : string → string → string.
Variable resample_IC_file : string → string → string.

Local Abbreviation run :=
  (run_interface environ cwd resample_mask resample_IC_file).

Definition with_dicts (inputs : Inputs)
    (l : list (nested (gmap string string))) : Inputs :=
  {| mask_dict_list := l; prior_maps := prior_maps inputs;
     DSURQE_regions := DSURQE_regions inputs |}.

(** X7: only the first mask dictionary of the flattened list is read: the
    run on a list that flattens to [d0 :: rest] is the run on [d0] alone. *)
Theorem first_dict_only (inputs : Inputs) (d0 : gmap string string)
    (rest : list (gmap string string)) :
  flatten_list (mask_dict_list inputs) = d0 :: rest →
  run inputs = run (with_dicts inputs [Item d0]).
Proof.
  intros Hl. unfold run_interface. rewrite Hl. reflexivity.
Qed.

(** The directory of the DSURQE files, as lines 50-53 find it. *)
Definition rabies_path : option string :=
  match environ !! "XDG_DATA_HOME", environ !! "HOME" with
  | Some xdg, _ => Some (xdg +:+ "/rabies")
  | None, Some home => Some (home +:+ "/.local/share/rabies")
  | None, None => None
  end.


(** X9: in the dictionary a run returns, the brain, white matter and CSF
    masks are the entries of the first mask dictionary, the prior maps are
    those resampled onto its brain mask, and the template and the edge mask
    are the two files of the working directory. *)
Theorem bundle_entries (inputs : Inputs) (d d0 : gmap string string)
    (rest : list (gmap string string)) :
  run inputs = Ok d →
  flatten_list (mask_dict_list inputs) = d0 :: rest →
  d !! "brain_mask" = d0 !! "mask_file"
  ∧ d !! "WM_mask" = d0 !! "WM_mask_file"
  ∧ d !! "CSF_mask" = d0 !! "CSF_mask_file"
  ∧ (∀ brain_mask_file, d0 !! "mask_file" = Some brain_mask_file →
       d !! "prior_maps"
       = Some (resample_IC_file (prior_maps inputs) brain_mask_file))
  ∧ d !! "template_file" = Some (abspath cwd "display_template.nii.gz")
  ∧ d !! "edge_mask" = Some (abspath cwd "edge_mask.nii.gz").
Proof.
  unfold run_interface, getitem. intros Hrun Hl. rewrite Hl in Hrun.
  cbn [mbind result_bind] in Hrun.
  destruct (d0 !! "mask_file") as [bm|]; [|discriminate].
  destruct (d0 !! "WM_mask_file") as [wm|]; [|discriminate].
  destruct (d0 !! "CSF_mask_file") as [csf|]; [|discriminate].
  destruct (d0 !! "preprocess_anat_template") as [tpl|]; [|discriminate].
  cbn [mbind result_bind] in Hrun.
  apply bind_Ok_inv in Hrun as ([r l] & _ & Hrun). injection Hrun as <-.
  repeat split; try reflexivity.
  intros ? [= <-]. reflexivity.
Qed.

(** X10: with [DSURQE_regions] set, the hemisphere masks are resampled from
    the files under [XDG_DATA_HOME] when it is defined, whatever [HOME] is,
    and from [HOME] otherwise. *)
Theorem hemisphere_masks (inputs : Inputs) (d d0 : gmap string string)
    (rest : list (gmap string string)) (brain_mask_file : string) :
  run inputs = Ok d →
  flatten_list (mask_dict_list inputs) = d0 :: rest →
  d0 !! "mask_file" = Some brain_mask_file →
  DSURQE_regions inputs = true →
  ∃ path, rabies_path = Some path
          ∧ d !! "right_hem_mask"
            = Some (resample_mask
                      (path +:+ "/DSURQE_40micron_right_hem_mask.nii.gz")
                      brain_mask_file)
          ∧ d !! "left_hem_mask"
            = Some (resample_mask
                      (path +:+ "/DSURQE_40micron_left_hem_mask.nii.gz")
                      brain_mask_file).
Proof.
  unfold run_interface, rabies_path, getitem. intros Hrun Hl Hbm Hflag.
  rewrite Hl in Hrun. cbn [mbind result_bind] in Hrun.
  rewrite Hbm, Hflag in Hrun.
  destruct (d0 !! "WM_mask_file") as [wm|]; [|discriminate].
  destruct (d0 !! "CSF_mask_file") as [csf|]; [|discriminate].
  destruct (d0 !! "preprocess_anat_template") as [tpl|]; [|discriminate].
  cbn [mbind result_bind] in Hrun.
  destruct (environ !! "XDG_DATA_HOME") as [xdg|] eqn:Hx.
  - rewrite decide_True in Hrun by eauto.
    cbn [mbind result_bind] in Hrun. injection Hrun as <-.
    eexists. repeat split; reflexivity.
  - rewrite decide_False in Hrun by (intros [? ?]; discriminate).
    destruct (environ !! "HOME") as [home|]; [|discriminate].
    cbn [mbind result_bind] in Hrun. injection Hrun as <-.
    eexists. repeat split; reflexivity.
Qed.

End Bundle.

(** Two subjects with the same masks, on a machine that defines both
    variables. *)
Definition subject_masks : gmap string string :=
  <[ "mask_file" := "/d/mask.nii.gz" ]>
  (<[ "WM_mask_file" := "/d/WM.nii.gz" ]>
  (<[ "CSF_mask_file" := "/d/CSF.nii.gz" ]>
  (<[ "preprocess_anat_template" := "/d/anat.nii.gz" ]> ∅))).

Definition two_subjects : Inputs :=
  {| mask_dict_list := [Nest [Item subject_masks]; Item subject_masks];
     prior_maps := "/d/melodic_IC.nii.gz";
     DSURQE_regions := true |}.

Definition both_variables : gmap string string :=
  <[ "XDG_DATA_HOME" := "/xdg" ]> (<[ "HOME" := "/home/user" ]> ∅).

Definition resampled (path reference : string) : string :=
  "resampled:" +:+ path.

Lemma first_dict_only_witness :
  run_interface both_variables "/work" resampled resampled two_subjects
  = run_interface both_variables "/work" resampled resampled
      (with_dicts two_subjects [Item subject_masks]).
Proof.
  apply (first_dict_only both_variables "/work" resampled resampled
           two_subjects subject_masks [subject_masks]).
  reflexivity.
Defined.

Lemma bundle_entries_witness :
  ∃ d, run_interface both_variables "/work" resampled resampled two_subjects
       = Ok d
       ∧ d !! "brain_mask" = subject_masks !! "mask_file"
       ∧ d !! "WM_mask" = subject_masks !! "WM_mask_file"
       ∧ d !! "CSF_mask" = subject_masks !! "CSF_mask_file"
       ∧ (∀ brain_mask_file,
            subject_masks !! "mask_file" = Some brain_mask_file →
            d !! "prior_maps"
            = Some (resampled (prior_maps two_subjects) brain_mask_file))
       ∧ d !! "template_file" = Some (abspath "/work" "display_template.nii.gz")
       ∧ d !! "edge_mask" = Some (abspath "/work" "edge_mask.nii.gz").
Proof.
  eexists. split; [vm_compute; reflexivity|].
  apply (bundle_entries both_variables "/work" resampled resampled
           two_subjects _ subject_masks [subject_masks]).
  - vm_compute. reflexivity.
  - reflexivity.
Defined.

Lemma hemisphere_masks_witness :
  ∃ d, run_interface both_variables "/work" resampled resampled two_subjects
       = Ok d
       ∧ ∃ path, rabies_path both_variables = Some path
           ∧ d !! "right_hem_mask"
             = Some (resampled
                       (path +:+ "/DSURQE_40micron_right_hem_mask.nii.gz")
                       "/d/mask.nii.gz")
           ∧ d !! "left_hem_mask"
             = Some (resampled
                       (path +:+ "/DSURQE_40micron_left_hem_mask.nii.gz")
                       "/d/mask.nii.gz").
Proof.
  eexists. split; [vm_compute; reflexivity|].
  apply (hemisphere_masks both_variables "/work" resampled resampled
           two_subjects _ subject_masks [subject_masks] "/d/mask.nii.gz").
  - vm_compute. reflexivity.
  - reflexivity.
  - reflexivity.
  - reflexivity.
Defined.

(** On that machine the files come from [XDG_DATA_HOME]. *)
Example both_variables_path : rabies_path both_variables = Some "/xdg/rabies".
Proof. reflexivity. Qed.

End MasksMore.

(** * More on the per-scan diagnosis *)

Module ScanMore.

Import Scan IoFacts Cli.

Lemma append_assoc (a b c : string) : (a +:+ b) +:+ c = a +:+ (b +:+ c).
Proof.
  induction a as [|x a IH]; [reflexivity|].
  change (String x ((a +:+ b) +:+ c) = String x (a +:+ (b +:+ c))).
  rewrite IH. reflexivity.
Qed.

Lemma append_empty_r (a : string) : a +:+ "" = a.
Proof.
  induction a as [|x a IH]; [reflexivity|].
  change (String x (a +:+ "") = String x a). rewrite IH. reflexivity.
Qed.

(** Without a slash the name is the whole path. *)
Lemma name_go_no_slash (name acc : string) :
  has_char "/" name = false → name_go name acc = acc +:+ name.
Proof.
  revert acc. induction name as [|c name IH]; intros acc; simpl.
  - intros _. symmetry. apply append_empty_r.
  - intros [Hc Hn]%orb_false_iff. rewrite Hc, (IH _ Hn), append_assoc.
    reflexivity.
Qed.

(** What precedes a slash does not count. *)
Lemma name_go_after_slash (dir name acc : string) :
  name_go (dir +:+ String "/" name) acc = name_go name "".
Proof.
  revert acc. induction dir as [|c dir IH]; intros acc.
  - reflexivity.
  - change (name_go (String c (dir +:+ String "/" name)) acc
            = name_go name "").
    simpl. destruct (Ascii.eqb c "/"); apply IH.
Qed.

Lemma path_name_file (dir name : string) :
  has_char "/" name = false → path_name (dir +:+ "/" +:+ name) = name.
Proof.
  intros Hn. unfold path_name.
  change (dir +:+ "/" +:+ name) with (dir +:+ String "/" name).
  rewrite name_go_after_slash. apply (name_go_no_slash name "" Hn).
Qed.

Lemma prefix_append (p s : string) : String.prefix p (p +:+ s) = true.
Proof.
  induction p as [|a p IH]; [destruct s; reflexivity|].
  change (String.prefix (String a p) (String a (p +:+ s)) = true).
  cbn [String.prefix]. destruct (ascii_dec a a); [exact IH|congruence].
Qed.

(** The stem of a name is what precedes its first [.nii] when there is no
    dot before. *)
Lemma before_first_stem (stem ext : string) :
  has_char "." stem = false →
  before_first ".nii" (stem +:+ ".nii" +:+ ext) = stem.
Proof.
  induction stem as [|c stem IH].
  - intros _. change ("" +:+ ".nii" +:+ ext) with (String "." ("nii" +:+ ext)).
    cbn [before_first].
    change (String "." ("nii" +:+ ext)) with (".nii" +:+ ext).
    rewrite prefix_append. reflexivity.
  - intros [Hc Hs]%orb_false_iff.
    change (before_first ".nii" (String c (stem +:+ ".nii" +:+ ext))
            = String c stem).
    cbn [before_first String.prefix].
    destruct (ascii_dec "." c) as [<-|_]; [discriminate|].
    rewrite (IH Hs). reflexivity.
Qed.

Section Figures.
Context {num figure stats item : Type}.
Variable int : item → result Z.
Variable scan_diagnosis : string → TemporalInfo → figure * figure.

Local Abbreviation run :=
  (run_interface (num := num) (stats := stats) int scan_diagnosis).


End Figures.


End ScanMore.

(** * More on the dataset-level diagnosis *)

Module DatasetMore.

Import Np Dataset IoFacts PathFacts DatasetFacts.

(** *** The output names are distinct *)

Lemma chars_inj (a b : string) : chars a = chars b → a = b.
Proof.
  revert b. induction a as [|x a IH]; intros [|y b]; simpl; try discriminate;
    [reflexivity|].
  intros [= -> H]. rewrite (IH _ H). reflexivity.
Qed.

Lemma append_inj_r (a b s : string) : a +:+ s = b +:+ s → a = b.
Proof.
  intros H. apply chars_inj. apply (f_equal chars) in H.
  rewrite !chars_app in H. apply app_inv_tail in H. exact H.
Qed.

Lemma maps_png_inj (out_dir family : string) (i j : nat) :
  maps_png out_dir family i = maps_png out_dir family j → i = j.
Proof.
  unfold maps_png. intros H.
  do 3 apply String.app_inj in H. apply append_inj_r in H.
  apply pretty_nat_inj in H. exact H.
Qed.

Lemma stats_csv_inj (out_dir family : string) (i j : nat) :
  stats_csv out_dir family i = stats_csv out_dir family j → i = j.
Proof.
  unfold stats_csv. intros H.
  do 3 apply String.app_inj in H. apply append_inj_r in H.
  apply pretty_nat_inj in H. exact H.
Qed.

Lemma maps_png_not_stats_csv (out_dir f f' : string) (i j : nat) :
  maps_png out_dir f i ≠ stats_csv out_dir f' j.
Proof.
  apply (ending_neq 6). rewrite ending_maps_png, ending_stats_csv.
  vm_compute. discriminate.
Qed.

(** Families whose names start with different characters. *)
Definition apart (f f' : string) : Prop :=
  match f, f' with
  | String a _, String b _ => a ≠ b
  | _, _ => False
  end.

Lemma maps_png_apart (out_dir f f' : string) (i j : nat) :
  apart f f' → maps_png out_dir f i ≠ maps_png out_dir f' j.
Proof.
  unfold maps_png. intros Hap H. do 2 apply String.app_inj in H.
  destruct f as [|a f], f' as [|b f']; try contradiction.
  change (String a (f +:+ pretty i +:+ "_QC_maps.png")
          = String b (f' +:+ pretty j +:+ "_QC_maps.png")) in H.
  injection H as Hab _. contradiction.
Qed.

Lemma stats_csv_apart (out_dir f f' : string) (i j : nat) :
  apart f f' → stats_csv out_dir f i ≠ stats_csv out_dir f' j.
Proof.
  unfold stats_csv. intros Hap H. do 2 apply String.app_inj in H.
  destruct f as [|a f], f' as [|b f']; try contradiction.
  change (String a (f +:+ pretty i +:+ "_QC_stats.csv")
          = String b (f' +:+ pretty j +:+ "_QC_stats.csv")) in H.
  injection H as Hab _. contradiction.
Qed.

Lemma elem_of_family_paths (out_dir family path : string) (n : nat) :
  path ∈ family_paths out_dir family n ↔
  ∃ i, i < n ∧ (path = maps_png out_dir family i
                ∨ path = stats_csv out_dir family i).
Proof.
  unfold family_paths. rewrite list_elem_of_In, in_flat_map. split.
  - intros (i & Hi%in_seq & Hp). exists i. split; [lia|].
    simpl in Hp. destruct Hp as [<-|[<-|[]]]; auto.
  - intros (i & Hi & Hp). exists i. split; [apply in_seq; lia|].
    simpl. destruct Hp as [->| ->]; auto.
Qed.

Lemma family_paths_NoDup (out_dir family : string) (n : nat) :
  NoDup (family_paths out_dir family n).
Proof.
  induction n as [|n IH]; [constructor|].
  unfold family_paths in *. rewrite seq_S, flat_map_app. simpl.
  apply NoDup_app. split; [exact IH|]. split.
  - intros path Hp. fold (family_paths out_dir family n) in Hp.
    apply elem_of_family_paths in Hp as (i & Hi & Hp).
    intros Hin. apply elem_of_cons in Hin as [->|Hin].
    + destruct Hp as [Hp|Hp]; [apply maps_png_inj in Hp; lia|].
      exact (maps_png_not_stats_csv _ _ _ _ _ Hp).
    + apply elem_of_cons in Hin as [->|Hin]; [|inversion Hin].
      destruct Hp as [Hp|Hp]; [|apply stats_csv_inj in Hp; lia].
      symmetry in Hp. exact (maps_png_not_stats_csv _ _ _ _ _ Hp).
  - constructor; [|constructor; [intros H; inversion H|constructor]].
    intros [H|H]%elem_of_cons; [|inversion H].
    exact (maps_png_not_stats_csv _ _ _ _ _ H).
Qed.

Lemma family_paths_apart (out_dir f f' path : string) (n m : nat) :
  apart f f' → path ∈ family_paths out_dir f n →
  path ∉ family_paths out_dir f' m.
Proof.
  intros Hap (i & _ & Hp)%elem_of_family_paths
         (j & _ & Hq)%elem_of_family_paths.
  destruct Hp as [->| ->], Hq as [Hq|Hq].
  - exact (maps_png_apart _ _ _ _ _ Hap Hq).
  - exact (maps_png_not_stats_csv _ _ _ _ _ Hq).
  - symmetry in Hq. exact (maps_png_not_stats_csv _ _ _ _ _ Hq).
  - exact (stats_csv_apart _ _ _ _ _ Hap Hq).
Qed.

Lemma crosscorr_not_family (out_dir family : string) (n : nat) :
  crosscorr_png out_dir ∉ family_paths out_dir family n.
Proof.
  intros (i & _ & [H|H])%elem_of_family_paths;
    apply (f_equal (ending 6)) in H;
    rewrite ending_crosscorr_png, ?ending_maps_png, ?ending_stats_csv in H;
    vm_compute in H; discriminate.
Qed.

Lemma all_names_NoDup (out_dir : string) (N M : nat) :
  NoDup (all_names out_dir N M).
Proof.
  unfold all_names. constructor.
  - rewrite !elem_of_app. intros [H|[H|H]];
      exact (crosscorr_not_family _ _ _ H).
  - apply NoDup_app. split; [apply family_paths_NoDup|]. split.
    + intros path Hp [H|H]%elem_of_app;
        revert H; apply (family_paths_apart _ _ _ _ _ _) with (2 := Hp);
        simpl; discriminate.
    + apply NoDup_app. split; [apply family_paths_NoDup|].
      split; [|apply family_paths_NoDup].
      intros path Hp. apply (family_paths_apart _ _ _ _ _ _) with (2 := Hp).
      simpl. discriminate.
Qed.

Section Runs.
Context {num figure stats : Type} `{!Collaborators num figure stats}.

Local Abbreviation scan := (SpatialInfo num * AnalysisDict * FileDict)%type.

(** X12: no two figures or tables of a run are written to the same path:
    within a run no output overwrites another. *)
Theorem outputs_NoDup (inputs : Inputs num) (cwd tmppath : string) :
  NoDup (outputs (trace (run_interface inputs cwd tmppath))).
Proof.
  destruct (run_follows inputs cwd tmppath) as [[k Hk] _].
  apply (sublist_NoDup _ _
           (all_names_NoDup (abspath cwd "dataset_diagnosis")
              (num_priors inputs) (length (seed_prior_maps inputs)))).
  etrans; [|apply plan_names]. rewrite Hk, outputs_app.
  apply sublist_inserts_r. reflexivity.
Qed.

(** *** The exceptions of a run *)

Local Abbreviation io := (io num figure stats).

(** Every exception a computation can end with satisfies [P]. *)
Definition raises_in {A : Type} (P : exn → Prop) (m : io A) : Prop :=
  ∀ e, outcome m = Raise e → P e.

Lemma raises_bind {A B : Type} (P : exn → Prop) (m : io A) (k : A → io B) :
  raises_in P m → (∀ a, raises_in P (k a)) → raises_in P (m ≫= k).
Proof.
  intros Hm Hk e. rewrite outcome_bind.
  destruct (outcome m) as [a|e'] eqn:Ho; [apply Hk|].
  intros [= ->]. apply Hm. exact Ho.
Qed.

Lemma raises_lift {A : Type} (P : exn → Prop) (r : result A) :
  (∀ e, r = Raise e → P e) → raises_in P (lift r : io A).
Proof. intros H e He. apply H. exact He. Qed.

Lemma raises_none {A : Type} (P : exn → Prop) (tr : list (event num figure stats))
    (a : A) :
  raises_in P (IO tr (Ok a)).
Proof. intros e. discriminate. Qed.

Lemma traverse_Raise {A B : Type} (f : A → result B) (l : list A) (e : exn) :
  traverse f l = Raise e → ∃ x, x ∈ l ∧ f x = Raise e.
Proof.
  induction l as [|x l IH]; [discriminate|]. cbn [traverse].
  destruct (f x) as [y|e'] eqn:Hx; cbn [mbind result_bind].
  - destruct (traverse f l) as [ys|e'']; [discriminate|].
    cbn [mbind result_bind]. intros [= ->].
    destruct (IH eq_refl) as (x' & Hin & Hx').
    exists x'. split; [right; exact Hin|exact Hx'].
  - intros [= ->]. exists x. split; [left|exact Hx].
Qed.

Definition mask_mismatch : exn :=
  IndexError "boolean index did not match indexed array".

Lemma bool_index_Raise (data : list num) (mask : list bool) (e : exn) :
  bool_index data mask = Raise e →
  e = mask_mismatch ∧ length data ≠ length mask.
Proof.
  unfold bool_index. destruct (_ =? _) eqn:Hl; [discriminate|].
  apply Nat.eqb_neq in Hl. intros [= <-]. auto.
Qed.

Lemma load_seeds_Raise (volume_indices : list bool) (scans : list scan)
    (e : exn) :
  load_seeds volume_indices scans = Raise e → e = mask_mismatch.
Proof.
  unfold load_seeds. intros (t & _ & Ht)%traverse_Raise.
  apply traverse_Raise in Ht as (p & _ & Hp).
  apply bool_index_Raise in Hp as [-> _]. reflexivity.
Qed.

(** The exceptions of the code after the sample size check. *)
Definition later_exception (e : exn) : Prop :=
  e = KeyError "template_file" ∨ e = KeyError "brain_mask"
  ∨ e = ValueError inhomogeneous_msg ∨ (∃ msg, e = IndexError msg)
  ∨ e = UnboundLocalError "spatial_info".

Lemma raises_QC_loop (out_dir family : string) (maps_list : list (mat num))
    (priors : mat num) (n : nat) (mask_file : string)
    (std VE : list (vec num)) (tdof : list Z) (template_file : string) :
  raises_in later_exception
    (QC_loop out_dir family maps_list priors n mask_file std VE tdof
             template_file).
Proof.
  intros e He.
  destruct (QC_loop_run out_dir family maps_list priors mask_file std VE tdof
              template_file n) as (k & _ & _ & _ & [[Ho _]|(_ & _ & msg & Ho)]);
    rewrite Ho in He; [discriminate|].
  injection He as <-. unfold later_exception. eauto 10.
Qed.

Lemma raises_array2 (rows : list (vec num)) :
  raises_in later_exception (lift (array2 rows) : io _).
Proof.
  apply raises_lift. unfold array2. destruct (homogeneous rows);
    [discriminate|]. intros e [= <-]. unfold later_exception. auto.
Qed.

Lemma raises_array3 (stacks : list (mat num)) :
  raises_in later_exception (lift (array3 stacks) : io _).
Proof.
  apply raises_lift. unfold array3. destruct (_ && _);
    [discriminate|]. intros e [= <-]. unfold later_exception. auto.
Qed.

Lemma raises_resample (tmppath mask_file : string)
    (volume_indices : list bool) (seed_priors : list string) :
  raises_in later_exception
    (resample_seed_priors tmppath mask_file volume_indices seed_priors).
Proof.
  induction seed_priors as [|p ps IH] using rev_ind; [apply raises_none|].
  rewrite resample_seed_priors_snoc.
  apply raises_bind; [exact IH|]. intros prior_maps.
  apply raises_bind; [apply raises_none|]. intros _.
  apply raises_bind; [|intros v; apply raises_none].
  apply raises_lift. intros e [-> _]%bool_index_Raise.
  unfold later_exception, mask_mismatch. eauto 10.
Qed.

Lemma raises_per_prior (out_dir tmppath mask_file template_file : string)
    (volume_indices : list bool) (seed_priors : list string)
    (st : Stacked num) :
  raises_in later_exception
    (per_prior_QC out_dir tmppath mask_file template_file volume_indices
                  seed_priors st).
Proof.
  unfold per_prior_QC.
  apply raises_bind.
  { apply raises_lift. destruct (spatial_info st); [discriminate|].
    intros e [= <-]. unfold later_exception. auto 10. }
  intros s. apply raises_bind; [apply raises_QC_loop|]. intros _.
  apply raises_bind.
  { destruct (0 <? shape1 _); [apply raises_QC_loop|apply raises_none]. }
  intros _. destruct (0 <? length seed_priors); [|apply raises_none].
  apply raises_bind; [apply raises_none|]. intros _.
  apply raises_bind; [apply raises_resample|]. intros prior_maps.
  apply raises_bind; [apply raises_array2|]. intros prior_maps'.
  apply raises_bind; [apply raises_array3|]. intros seed_maps.
  apply raises_QC_loop.
Qed.

Lemma raises_stack_maps (volume_indices : list bool) (scans : list scan) :
  raises_in later_exception (lift (stack_maps volume_indices scans) : io _).
Proof.
  apply raises_lift. intros e. rewrite stack_maps_eq.
  destruct (load_seeds volume_indices scans) as [seeds|e'] eqn:Hs.
  - cbn [mbind result_bind]. destruct (consistent scans); [discriminate|].
    intros [= <-]. unfold later_exception. auto.
  - intros [= <-]. apply load_seeds_Raise in Hs as ->.
    unfold later_exception, mask_mismatch. eauto 10.
Qed.

(** Past the sample size check, a run raises one of the later exceptions
    only. *)
Lemma run_raises (inputs : Inputs num) (cwd tmppath : string) :
  3 ≤ length (flatten_list (spatial_info_list inputs)) →
  raises_in later_exception (run_interface inputs cwd tmppath).
Proof.
  intros Hge. unfold run_interface.
  destruct (_ <? 3) eqn:Hcheck; [apply Nat.ltb_lt in Hcheck; lia|].
  apply raises_bind; [apply raises_none|]. intros _.
  apply raises_bind.
  { apply raises_lift. unfold getitem. destruct (_ !! _); [discriminate|].
    intros e [= <-]. unfold later_exception. auto. }
  intros template_file. apply raises_bind.
  { apply raises_lift. unfold getitem. destruct (_ !! _); [discriminate|].
    intros e [= <-]. unfold later_exception. auto. }
  intros mask_file. apply raises_bind; [apply raises_none|]. intros _.
  apply raises_bind; [apply raises_stack_maps|]. intros st.
  apply raises_bind; [apply raises_per_prior|]. intros _.
  apply raises_none.
Qed.


(** X14: the sample size error is raised for the cohorts of fewer than 3
    scans and for no other. *)
Theorem sample_size_error_iff (inputs : Inputs num) (cwd tmppath : string) :
  outcome (run_interface inputs cwd tmppath) = Raise (ValueError sample_size_msg)
  ↔ length (flatten_list (spatial_info_list inputs)) < 3.
Proof.
  split.
  - intros He.
    destruct (Nat.lt_ge_cases (length (flatten_list (spatial_info_list inputs))) 3)
      as [Hlt|Hge]; [exact Hlt|].
    pose proof (run_raises inputs cwd tmppath Hge _ He) as Hl.
    unfold later_exception in Hl.
    destruct Hl as [H|[H|[H|[[msg H]|H]]]]; discriminate.
  - intros Hlt. unfold run_interface.
    destruct (_ <? 3) eqn:Hcheck; [reflexivity|].
    apply Nat.ltb_ge in Hcheck. lia.
Qed.

(** *** Failures before the stacks are built *)

(** X15: with 3 scans or more, a mask bundle without [template_file], or
    with it and without [brain_mask], makes the run raise the [KeyError] of
    that key after the output directory is made and before any file is
    written. *)
Theorem missing_bundle_key (inputs : Inputs num) (cwd tmppath key : string) :
  3 ≤ length (flatten_list (spatial_info_list inputs)) →
  key = "template_file"
  ∨ (key = "brain_mask"
     ∧ is_Some (mask_file_dict inputs !! "template_file")) →
  mask_file_dict inputs !! key = None →
  run_interface inputs cwd tmppath
  = IO [MkDir (abspath cwd "dataset_diagnosis")] (Raise (KeyError key)).
Proof.
  intros Hge Hkey Hnone. unfold run_interface.
  destruct (_ <? 3) eqn:Hcheck; [apply Nat.ltb_lt in Hcheck; lia|].
  unfold makedirs, getitem. rewrite bind_emit.
  destruct Hkey as [->|[-> [t Ht]]].
  - rewrite Hnone. reflexivity.
  - rewrite Ht, bind_lift_Ok, Hnone. reflexivity.
Qed.

Lemma zip3_nil_r {A B C : Type} (a : list A) (b : list B) (c : list C) :
  b = [] ∨ c = [] → zip3 a b c = [].
Proof. intros [-> | ->]; destruct a as [|x a]; try destruct b; reflexivity. Qed.

(** X16: with 3 scans or more in [spatial_info_list] but an empty
    [analysis_dict_list] or [file_dict_list], the loop over the scans runs
    over nothing: the run draws the cross-correlation figure and then raises
    [UnboundLocalError] for [spatial_info], which line 233 reads. *)
Theorem empty_companion_list (inputs : Inputs num)
    (cwd tmppath template_file mask_file : string) :
  3 ≤ length (flatten_list (spatial_info_list inputs)) →
  mask_file_dict inputs !! "template_file" = Some template_file →
  mask_file_dict inputs !! "brain_mask" = Some mask_file →
  flatten_list (analysis_dict_list inputs) = []
  ∨ flatten_list (file_dict_list inputs) = [] →
  outcome (run_interface inputs cwd tmppath)
  = Raise (UnboundLocalError "spatial_info")
  ∧ outputs (trace (run_interface inputs cwd tmppath))
    = [crosscorr_png (abspath cwd "dataset_diagnosis")].
Proof.
  intros Hge Htpl Hmsk Hnil. unfold run_interface.
  destruct (_ <? 3) eqn:Hcheck; [apply Nat.ltb_lt in Hcheck; lia|].
  unfold makedirs, getitem, write.
  rewrite bind_emit, Htpl, bind_lift_Ok, Hmsk, bind_lift_Ok, bind_emit.
  rewrite (zip3_nil_r _ _ _ Hnil). split; reflexivity.
Qed.

Lemma traverse_first_Raise {A B : Type} (f : A → result B) (l : list A)
    (e0 : exn) (x : A) :
  (∀ y e, f y = Raise e → e = e0) → x ∈ l → f x = Raise e0 →
  traverse f l = Raise e0.
Proof.
  intros Hsame Hin Hx. induction Hin as [x l|x y l _ IH]; cbn [traverse].
  - rewrite Hx. reflexivity.
  - destruct (f y) as [b|e] eqn:Hy; [|rewrite (Hsame _ _ Hy); reflexivity].
    cbn [mbind result_bind]. rewrite (IH Hx). reflexivity.
Qed.

(** X17: the seed maps of the scans are read and masked in the loop over
    the scans whether or not seed priors are given: one seed map whose
    voxel count differs from the mask's makes the run raise [IndexError]
    right after the cross-correlation figure. *)
Theorem seed_map_off_grid (inputs : Inputs num)
    (cwd tmppath template_file mask_file : string) (t : scan)
    (seed_map : string) :
  3 ≤ length (flatten_list (spatial_info_list inputs)) →
  mask_file_dict inputs !! "template_file" = Some template_file →
  mask_file_dict inputs !! "brain_mask" = Some mask_file →
  t ∈ scans_of inputs → seed_map ∈ seed_map_files t.1.2 →
  length (nb_load seed_map) ≠ length (nb_load mask_file) →
  outcome (run_interface inputs cwd tmppath) = Raise mask_mismatch
  ∧ outputs (trace (run_interface inputs cwd tmppath))
    = [crosscorr_png (abspath cwd "dataset_diagnosis")].
Proof.
  intros Hge Htpl Hmsk Ht Hp Hlen.
  assert (Hstack : stack_maps (map nonzero (nb_load mask_file))
                     (scans_of inputs) = Raise mask_mismatch).
  { rewrite stack_maps_eq.
    assert (Hl : load_seeds (map nonzero (nb_load mask_file)) (scans_of inputs)
                 = Raise mask_mismatch); [|rewrite Hl; reflexivity].
    unfold load_seeds. apply (traverse_first_Raise _ _ _ t); [|exact Ht|].
    - intros y e (p & _ & He)%traverse_Raise.
      apply bool_index_Raise in He as [-> _]. reflexivity.
    - apply (traverse_first_Raise _ _ _ seed_map); [|exact Hp|].
      + intros y e [-> _]%bool_index_Raise. reflexivity.
      + unfold bool_index. rewrite length_map.
        apply Nat.eqb_neq in Hlen. rewrite Hlen. reflexivity. }
  unfold run_interface.
  destruct (_ <? 3) eqn:Hcheck; [apply Nat.ltb_lt in Hcheck; lia|].
  unfold makedirs, getitem, write.
  rewrite bind_emit, Htpl, bind_lift_Ok, Hmsk, bind_lift_Ok, bind_emit.
  fold (scans_of inputs). rewrite Hstack. split; reflexivity.
Qed.

(** *** Where a run writes *)

(** X18: a run writes nowhere but in its output directory and at the
    temporary image: every file it writes is
    [<cwd>/dataset_diagnosis/<name>] for some name, or
    [<tmppath>/temp_img.nii.gz]. *)
Theorem writes_in_output_dir (inputs : Inputs num) (cwd tmppath : string)
    (path : string) (c : content num figure stats) :
  WriteFile path c ∈ trace (run_interface inputs cwd tmppath) →
  path = temp_img tmppath
  ∨ ∃ name, path = abspath cwd "dataset_diagnosis" +:+ "/" +:+ name.
Proof.
  intros Hin. pose proof (run_dataset inputs cwd tmppath) as Hall.
  rewrite Forall_forall in Hall. specialize (Hall _ Hin).
  destruct c as [f|rows|img]; simpl in Hall; [| |auto].
  - right. destruct Hall as [->|(family & i & [->| ->])]; eexists; reflexivity.
  - right. destruct Hall as [->|(family & i & [->| ->])]; eexists; reflexivity.
Qed.

End Runs.

End DatasetMore.

(** ** The cohort again: the failures of a run on concrete inputs *)

Module CohortMore.

Import Np Dataset IoFacts DatasetFacts DatasetMore Cohort.

#[local] Existing Instance three_voxels.


(** The full cohort with a bundle that lacks the brain mask. *)
Definition no_brain_mask : Inputs Z :=
  {| spatial_info_list := spatial_info_list full_cohort;
     analysis_dict_list := analysis_dict_list full_cohort;
     file_dict_list := file_dict_list full_cohort;
     mask_file_dict := <[ "template_file" := "template.nii.gz" ]> ∅;
     seed_prior_maps := seed_prior_maps full_cohort |}.

Lemma missing_bundle_key_witness :
  run_interface no_brain_mask "/work" "/tmp/tmpq"
  = IO [MkDir (abspath "/work" "dataset_diagnosis")]
       (Raise (KeyError "brain_mask")).
Proof.
  apply (missing_bundle_key no_brain_mask "/work" "/tmp/tmpq" "brain_mask").
  - vm_compute. lia.
  - right. split; [reflexivity|]. exists "template.nii.gz". reflexivity.
  - reflexivity.
Defined.

(** Three spatial records and no analysis record. *)
Definition no_analysis : Inputs Z :=
  {| spatial_info_list := spatial_info_list full_cohort;
     analysis_dict_list := [];
     file_dict_list := file_dict_list full_cohort;
     mask_file_dict := bundle;
     seed_prior_maps := [] |}.

Lemma empty_companion_list_witness :
  outcome (run_interface no_analysis "/work" "/tmp/tmpq")
  = Raise (UnboundLocalError "spatial_info")
  ∧ outputs (trace (run_interface no_analysis "/work" "/tmp/tmpq"))
    = [crosscorr_png (abspath "/work" "dataset_diagnosis")].
Proof.
  apply (empty_companion_list no_analysis "/work" "/tmp/tmpq"
           "template.nii.gz" "mask.nii.gz").
  - vm_compute. lia.
  - reflexivity.
  - reflexivity.
  - left. reflexivity.
Defined.

Lemma writes_in_output_dir_witness :
  "/work/dataset_diagnosis/DR0_QC_stats.csv" = temp_img "/tmp/tmpq"
  ∨ ∃ name, "/work/dataset_diagnosis/DR0_QC_stats.csv"
            = abspath "/work" "dataset_diagnosis" +:+ "/" +:+ name.
Proof.
  apply (writes_in_output_dir one_DR_map "/work" "/tmp/tmpq"
           "/work/dataset_diagnosis/DR0_QC_stats.csv"
           (Csv [[1; 1; 1; 1; 2; 2; 3; 3]%Z])).
  apply list_elem_of_In. vm_compute. right. right. right. left. reflexivity.
Defined.

End CohortMore.

Module OffGrid.

Import Np Dataset IoFacts DatasetFacts DatasetMore Cohort.

(** Collaborators as in the cohort, but for one seed map that was left on
    a grid of two voxels. *)
#[local] Instance short_seed_map : Collaborators Z string (list Z) := {|
  nonzero := λ x, negb (x =? 0)%Z;
  nb_load := λ path,
    if String.eqb path "mask.nii.gz" then [1; 0; 1]%Z
    else if String.eqb path "native_seed_map.nii.gz" then [7; 8]%Z
    else [7; 8; 9]%Z;
  otsu_scaling := λ _, [];
  spatial_crosscorrelations := λ _ _ _, "crosscorrelations";
  analysis_QC := λ FC_maps prior_map _ _ _ _ _,
    (prior_map ++ concat FC_maps, "QC");
  sitk_resample := λ _ _, [4; 5; 6]%Z;
|}.

(** Three scans with that seed map, and no seed prior. *)
Definition native_seed : Inputs Z :=
  cohort 3 2 0 ["native_seed_map.nii.gz"] [].

Lemma seed_map_off_grid_witness :
  outcome (run_interface native_seed "/work" "/tmp/tmpq") = Raise mask_mismatch
  ∧ outputs (trace (run_interface native_seed "/work" "/tmp/tmpq"))
    = [crosscorr_png (abspath "/work" "dataset_diagnosis")].
Proof.
  apply (seed_map_off_grid native_seed "/work" "/tmp/tmpq"
           "template.nii.gz" "mask.nii.gz"
           (scan_of 1 2 0, analysis_of ["native_seed_map.nii.gz"],
            files_of "sub_bold.nii.gz")
           "native_seed_map.nii.gz").
  - vm_compute. lia.
  - reflexivity.
  - reflexivity.
  - apply list_elem_of_In. vm_compute. left. reflexivity.
  - apply list_elem_of_In. vm_compute. left. reflexivity.
  - vm_compute. lia.
Defined.

End OffGrid.
